(** * AudioManager: the modal-synthesis keypress engine

    A shallow embedding of [src/js/audio/AudioManager.js].  JavaScript
    numbers are read as exact rationals ([Q]): every literal of the source
    is a finite decimal, and the arithmetic below is the source's
    arithmetic without rounding.  The browser is an explicit [Host]
    record: the position in the stream of [Math.random] draws, the table
    of pending [setTimeout] timers, the audio nodes built so far and the
    persisted preference.  Methods are computations in a small
    state-and-exception monad over the pair of the object's fields and
    the host. *)

From Stdlib Require Import QArith Qround Lqa Lia List Bool.
From stdpp Require Import gmap.
Import ListNotations.

Local Open Scope Q_scope.

(** ** Host objects *)

Inductive Exception : Type :=
| TypeError
| InvalidStateError
| NotSupportedError
| SecurityError
| QuotaExceededError.

Inductive completion (A : Type) : Type :=
| Normal (a : A)
| Throw (e : Exception).
Arguments Normal {A} a.
Arguments Throw {A} e.

Inductive ContextState : Type := Suspended | Running | Closed.

Record AudioContext : Type := {
  ctx_state : ContextState;
  currentTime : Q;
  sampleRate : Q
}.

(** One channel of samples, as [createBuffer(1, length, sampleRate)] and
    [decodeAudioData] return it. *)
Record AudioBuffer : Type := {
  channelData : list Q;
  buffer_rate : Q
}.

(** Automation events of an [AudioParam]. *)
Inductive ParamEvent : Type :=
| setValueAtTime (value time : Q)
| linearRampToValueAtTime (value time : Q)
| exponentialRampToValueAtTime (value time : Q).

Record GainNode : Type := {
  gain_value : Q;
  gain_events : list ParamEvent
}.

(** A mode of a config object: [{ freq, Q, gain }]. *)
Record Mode : Type := {
  freq : Q;
  mode_Q : Q;
  gain : Q
}.

(** The config object handed to [triggerModalImpact]:
    [{ duration, modes, masterGain }]. *)
Record ImpactConfig : Type := {
  duration : Q;
  modes : list Mode;
  cfg_masterGain : Q
}.

(** A bandpass [BiquadFilterNode] followed by its [modeGain]. *)
Record ModeFilter : Type := {
  filter_frequency : Q;
  filter_Q : Q;
  modeGain_value : Q
}.

(** Everything one call of [triggerModalImpact] builds: the exciter
    source and the buffer assigned to it ([this.brownNoiseBuffer], which
    may be [null]), its envelope, the filter bank, the per-impact gain,
    and the scheduled start and stop of the exciter.
    [voice_config] remembers the config object the voice was built from. *)
Record ModalVoice : Type := {
  voice_config : ImpactConfig;
  exciter_buffer : option AudioBuffer;
  exciterGain_events : list ParamEvent;
  impactGain_value : Q;
  voice_filters : list ModeFilter;
  exciter_start : Q;
  exciter_stop : Q
}.

(** What [playBuffer] builds: a source on the sample and its gain. *)
Record SampleVoice : Type := {
  sample_buffer : AudioBuffer;
  playbackRate : Q;
  pressGain_value : Q
}.

(** What the sample branch of [startTypingLoop] builds. *)
Record LoopSource : Type := {
  loop_buffer : AudioBuffer;
  loop : bool;
  loopGain_events : list ParamEvent
}.

Inductive Node : Type :=
| ModalNode (v : ModalVoice)
| SampleNode (s : SampleVoice).

(** [CONFIG.audio] of [config.js], which the engine only reads. *)
Record AudioConfig : Type := {
  masterVolume : Q;
  loopVolume : Q;
  keyPressVolume : Q;
  fadeInDuration : Q;
  fadeOutDuration : Q
}.

(** ** The object and the host *)

(** The fields the constructor declares, in its order. *)
Record AudioManager : Type := {
  context : option AudioContext;
  masterGain : option GainNode;
  typingLoopSource : option LoopSource;
  typingLoopBuffer : option AudioBuffer;
  keyPressBuffer : option AudioBuffer;
  brownNoiseBuffer : option AudioBuffer;
  enabled : bool;
  initialized : bool;
  typingLoopTimeout : option positive
}.

(** The browser side: [draws] is the number of [Math.random] calls made
    so far; [timers] maps the handle of every pending [setTimeout] to its
    delay in milliseconds (the only callback this class registers is
    [scheduleNextKey]); handles are positive integers handed out in
    order; [graph] lists the voices in creation order; [storage] is the
    persisted preference and [rejections] counts rejected promises nobody
    awaits; [storage_error] is what [localStorage.setItem] raises in this
    page, if anything (storage denied or full). *)
Record Host : Type := {
  draws : nat;
  timers : gmap positive Q;
  next_timer : positive;
  graph : list Node;
  storage : option bool;
  rejections : nat;
  storage_error : option Exception
}.

Record World : Type := {
  this : AudioManager;
  host : Host
}.

Definition constructor : AudioManager :=
  {| context := None; masterGain := None; typingLoopSource := None;
     typingLoopBuffer := None; keyPressBuffer := None;
     brownNoiseBuffer := None; enabled := true; initialized := false;
     typingLoopTimeout := None |}.

Definition fresh_host : Host :=
  {| draws := 0; timers := ∅; next_timer := 1%positive; graph := [];
     storage := None; rejections := 0; storage_error := None |}.

(** Field updates. *)
Definition with_context (c : option AudioContext) (a : AudioManager) :=
  {| context := c; masterGain := masterGain a;
     typingLoopSource := typingLoopSource a;
     typingLoopBuffer := typingLoopBuffer a;
     keyPressBuffer := keyPressBuffer a;
     brownNoiseBuffer := brownNoiseBuffer a; enabled := enabled a;
     initialized := initialized a;
     typingLoopTimeout := typingLoopTimeout a |}.

Definition with_masterGain (g : option GainNode) (a : AudioManager) :=
  {| context := context a; masterGain := g;
     typingLoopSource := typingLoopSource a;
     typingLoopBuffer := typingLoopBuffer a;
     keyPressBuffer := keyPressBuffer a;
     brownNoiseBuffer := brownNoiseBuffer a; enabled := enabled a;
     initialized := initialized a;
     typingLoopTimeout := typingLoopTimeout a |}.

Definition with_typingLoopSource (s : option LoopSource) (a : AudioManager) :=
  {| context := context a; masterGain := masterGain a;
     typingLoopSource := s;
     typingLoopBuffer := typingLoopBuffer a;
     keyPressBuffer := keyPressBuffer a;
     brownNoiseBuffer := brownNoiseBuffer a; enabled := enabled a;
     initialized := initialized a;
     typingLoopTimeout := typingLoopTimeout a |}.

Definition with_sounds (l p : option AudioBuffer) (a : AudioManager) :=
  {| context := context a; masterGain := masterGain a;
     typingLoopSource := typingLoopSource a;
     typingLoopBuffer := l;
     keyPressBuffer := p;
     brownNoiseBuffer := brownNoiseBuffer a; enabled := enabled a;
     initialized := initialized a;
     typingLoopTimeout := typingLoopTimeout a |}.

Definition with_brownNoiseBuffer (b : option AudioBuffer) (a : AudioManager) :=
  {| context := context a; masterGain := masterGain a;
     typingLoopSource := typingLoopSource a;
     typingLoopBuffer := typingLoopBuffer a;
     keyPressBuffer := keyPressBuffer a;
     brownNoiseBuffer := b; enabled := enabled a;
     initialized := initialized a;
     typingLoopTimeout := typingLoopTimeout a |}.

Definition with_enabled (b : bool) (a : AudioManager) :=
  {| context := context a; masterGain := masterGain a;
     typingLoopSource := typingLoopSource a;
     typingLoopBuffer := typingLoopBuffer a;
     keyPressBuffer := keyPressBuffer a;
     brownNoiseBuffer := brownNoiseBuffer a; enabled := b;
     initialized := initialized a;
     typingLoopTimeout := typingLoopTimeout a |}.

Definition with_initialized (b : bool) (a : AudioManager) :=
  {| context := context a; masterGain := masterGain a;
     typingLoopSource := typingLoopSource a;
     typingLoopBuffer := typingLoopBuffer a;
     keyPressBuffer := keyPressBuffer a;
     brownNoiseBuffer := brownNoiseBuffer a; enabled := enabled a;
     initialized := b;
     typingLoopTimeout := typingLoopTimeout a |}.

Definition with_typingLoopTimeout (t : option positive) (a : AudioManager) :=
  {| context := context a; masterGain := masterGain a;
     typingLoopSource := typingLoopSource a;
     typingLoopBuffer := typingLoopBuffer a;
     keyPressBuffer := keyPressBuffer a;
     brownNoiseBuffer := brownNoiseBuffer a; enabled := enabled a;
     initialized := initialized a;
     typingLoopTimeout := t |}.

Definition with_draws (n : nat) (h : Host) :=
  {| draws := n; timers := timers h; next_timer := next_timer h;
     graph := graph h; storage := storage h; rejections := rejections h;
     storage_error := storage_error h |}.

Definition with_timers (t : gmap positive Q) (n : positive) (h : Host) :=
  {| draws := draws h; timers := t; next_timer := n;
     graph := graph h; storage := storage h; rejections := rejections h;
     storage_error := storage_error h |}.

Definition with_graph (g : list Node) (h : Host) :=
  {| draws := draws h; timers := timers h; next_timer := next_timer h;
     graph := g; storage := storage h; rejections := rejections h;
     storage_error := storage_error h |}.

Definition with_storage (s : option bool) (h : Host) :=
  {| draws := draws h; timers := timers h; next_timer := next_timer h;
     graph := graph h; storage := s; rejections := rejections h;
     storage_error := storage_error h |}.

Definition with_rejections (n : nat) (h : Host) :=
  {| draws := draws h; timers := timers h; next_timer := next_timer h;
     graph := graph h; storage := storage h; rejections := n;
     storage_error := storage_error h |}.

(** ** The monad of methods *)

Definition M (A : Type) : Type := World -> completion A * World.

Definition ret {A} (a : A) : M A := fun w => (Normal a, w).

Definition bind {A B} (c : M A) (k : A -> M B) : M B :=
  fun w =>
    match c w with
    | (Normal a, w') => k a w'
    | (Throw e, w') => (Throw e, w')
    end.

Definition throw {A} (e : Exception) : M A := fun w => (Throw e, w).

(** [try { body } catch (e) { handler }]. *)
Definition try_catch {A} (body : M A) (handler : Exception -> M A) : M A :=
  fun w =>
    match body w with
    | (Normal a, w') => (Normal a, w')
    | (Throw e, w') => handler e w'
    end.

Definition get_this : M AudioManager := fun w => (Normal (this w), w).

Definition get_host : M Host := fun w => (Normal (host w), w).

Definition set_this (f : AudioManager -> AudioManager) : M unit :=
  fun w => (Normal tt, {| this := f (this w); host := host w |}).

Definition set_host (f : Host -> Host) : M unit :=
  fun w => (Normal tt, {| this := this w; host := f (host w) |}).

Declare Scope method_scope.
Delimit Scope method_scope with method.
Notation "x <- c ;; k" := (bind c (fun x => k))
  (at level 100, c at next level, right associativity) : method_scope.
Notation "c ;; k" := (bind c (fun _ => k))
  (at level 100, right associativity) : method_scope.
Local Open Scope method_scope.

(** [this.context.<member>]: a [TypeError] on [null]. *)
Definition the_context : M AudioContext :=
  a <- get_this ;;
  match context a with
  | Some ctx => ret ctx
  | None => throw TypeError
  end.

(** [node.connect(this.masterGain)]: a [TypeError] on [null]. *)
Definition connect_masterGain : M unit :=
  a <- get_this ;;
  match masterGain a with
  | Some _ => ret tt
  | None => throw TypeError
  end.

Definition setTimeout (delay : Q) : M positive :=
  h <- get_host ;;
  let id := next_timer h in
  set_host (with_timers (<[id := delay]> (timers h)) (Pos.succ id)) ;;
  ret id.

Definition clearTimeout (id : positive) : M unit :=
  set_host (fun h => with_timers (delete id (timers h)) (next_timer h) h).

Definition push_node (n : Node) : M unit :=
  set_host (fun h => with_graph (graph h ++ [n]) h).

(** ** The methods of [AudioManager] *)

Section Engine.

(** [random n] is the value of the [n]-th call of [Math.random]. *)
Variable random : nat -> Q.

(** [CONFIG.audio]. *)
Variable CONFIG : AudioConfig.

(** Whether the host's [stop()] or [disconnect()] raises on a given
    loop source (the source comments that it may). *)
Variable stop_throws : LoopSource -> bool.

Definition Math_random : M Q :=
  h <- get_host ;;
  set_host (with_draws (S (draws h))) ;;
  ret (random (draws h)).

(** [rand(min, max)] *)
Definition rand (min max : Q) : M Q :=
  r <- Math_random ;;
  ret (min + r * (max - min)).

(** The body of the [for] loop of [createBrownNoiseBuffer], [n]
    iterations from the running value [lastOut]; the result lists
    [data[i]] in index order. *)
Fixpoint brown_loop (n : nat) (lastOut : Q) : M (list Q) :=
  match n with
  | O => ret []
  | S n' =>
      r <- Math_random ;;
      let white := r * 2 - 1 in
      let lastOut := (lastOut + 0.02 * white) / 1.02 in
      data <- brown_loop n' lastOut ;;
      ret (lastOut * 3.5 :: data)
  end.

(** [context.createBuffer(1, length, sampleRate)] raises
    [NotSupportedError] for a length of zero (the sample rate of a
    context is positive, so the length is never negative). *)
Definition createBrownNoiseBuffer : M AudioBuffer :=
  ctx <- the_context ;;
  let length := Qfloor (sampleRate ctx * 0.05) in
  if (length <=? 0)%Z then throw NotSupportedError
  else
    data <- brown_loop (Z.to_nat length) 0 ;;
    ret {| channelData := data; buffer_rate := sampleRate ctx |}.

(** [rand] applied to one literal of a mode table:
    [{ freq: base * this.rand(lo, hi), Q: q, gain: g }]. *)
Definition mode (base lo hi q g : Q) : M Mode :=
  r <- rand lo hi ;;
  ret {| freq := base * r; mode_Q := q; gain := g |}.

(** The callback of [config.modes.forEach] in [triggerModalImpact]. *)
Fixpoint forEach_mode (ms : list Mode) : M (list ModeFilter) :=
  match ms with
  | [] => ret []
  | m :: ms' =>
      r <- rand 0.85 1.15 ;;
      fs <- forEach_mode ms' ;;
      ret ({| filter_frequency := freq m; filter_Q := mode_Q m;
              modeGain_value := gain m * r |} :: fs)
  end.

(** [triggerModalImpact(startTime, config)] *)
Definition triggerModalImpact (startTime : Q) (config : ImpactConfig)
  : M unit :=
  _ <- the_context ;;
  a <- get_this ;;
  let envelope :=
    [ setValueAtTime 0.001 startTime;
      linearRampToValueAtTime 1.0 (startTime + 0.0001);
      exponentialRampToValueAtTime 0.001
        (startTime + duration config) ] in
  let impactGain := cfg_masterGain config * keyPressVolume CONFIG in
  connect_masterGain ;;
  filters <- forEach_mode (modes config) ;;
  push_node (ModalNode
    {| voice_config := config;
       exciter_buffer := brownNoiseBuffer a;
       exciterGain_events := envelope;
       impactGain_value := impactGain;
       voice_filters := filters;
       exciter_start := startTime;
       exciter_stop := startTime + duration config + 0.15 |}).

(** [playModalKeypress()] *)
Definition playModalKeypress : M unit :=
  a <- get_this ;;
  match context a, brownNoiseBuffer a with
  | Some ctx, Some _ =>
      let t := currentTime ctx in
      m1 <- mode 1100 0.97 1.03 8 0.5 ;;
      m2 <- mode 2200 0.97 1.03 5 0.25 ;;
      m3 <- mode 3800 0.97 1.03 3 0.1 ;;
      triggerModalImpact t
        {| duration := 0.002; modes := [m1; m2; m3];
           cfg_masterGain := 0.4 |} ;;
      m1 <- mode 160 0.95 1.05 28 0.7 ;;
      m2 <- mode 280 0.95 1.05 22 0.5 ;;
      m3 <- mode 520 0.97 1.03 18 1.0 ;;
      m4 <- mode 780 0.97 1.03 14 0.6 ;;
      m5 <- mode 1150 0.97 1.03 10 0.35 ;;
      m6 <- mode 1800 0.97 1.03 6 0.2 ;;
      m7 <- mode 2900 0.97 1.03 4 0.1 ;;
      triggerModalImpact (t + 0.0015)
        {| duration := 0.004; modes := [m1; m2; m3; m4; m5; m6; m7];
           cfg_masterGain := 0.8 |} ;;
      m1 <- mode 1250 0.97 1.03 7 0.3 ;;
      m2 <- mode 2000 0.97 1.03 5 0.15 ;;
      m3 <- mode 200 0.95 1.05 15 0.2 ;;
      triggerModalImpact (t + 0.055)
        {| duration := 0.0015; modes := [m1; m2; m3];
           cfg_masterGain := 0.25 |}
  | _, _ => ret tt
  end.

(** [playBuffer(buffer)]; its [onended] handler only disconnects the
    two nodes once the sample has played and is left out. *)
Definition playBuffer (buffer : AudioBuffer) : M unit :=
  _ <- the_context ;;
  r <- Math_random ;;
  connect_masterGain ;;
  push_node (SampleNode
    {| sample_buffer := buffer;
       playbackRate := 0.95 + r * 0.1;
       pressGain_value := keyPressVolume CONFIG |}).

(** [playKeyPress()] *)
Definition playKeyPress : M unit :=
  a <- get_this ;;
  if negb (enabled a) || negb (initialized a) then ret tt
  else
    match keyPressBuffer a with
    | Some buffer => playBuffer buffer
    | None => playModalKeypress
    end.

(** The closure [scheduleNextKey] of [startSyntheticTypingLoop]. *)
Definition scheduleNextKey : M unit :=
  a <- get_this ;;
  if negb (enabled a) then set_this (with_typingLoopTimeout None)
  else
    playModalKeypress ;;
    r <- Math_random ;;
    let nextDelay := 100 + r * 150 in
    id <- setTimeout nextDelay ;;
    set_this (with_typingLoopTimeout (Some id)).

(** [startSyntheticTypingLoop()] *)
Definition startSyntheticTypingLoop : M unit :=
  id <- setTimeout 500 ;;
  set_this (with_typingLoopTimeout (Some id)).

(** [startTypingLoop()] *)
Definition startTypingLoop : M unit :=
  a <- get_this ;;
  if negb (enabled a) || negb (initialized a) then ret tt
  else
    match typingLoopBuffer a with
    | Some buffer =>
        ctx <- the_context ;;
        let fade :=
          [ setValueAtTime 0 (currentTime ctx);
            linearRampToValueAtTime (loopVolume CONFIG)
              (currentTime ctx + fadeInDuration CONFIG / 1000) ] in
        set_this (with_typingLoopSource
          (Some {| loop_buffer := buffer; loop := true;
                   loopGain_events := fade |})) ;;
        connect_masterGain
    | None => startSyntheticTypingLoop
    end.

(** [typingLoopSource.stop(); typingLoopSource.disconnect();] as the
    host runs them. *)
Definition source_stop (s : LoopSource) : M unit :=
  if stop_throws s then throw InvalidStateError else ret tt.

(** [stopTypingLoop()] *)
Definition stopTypingLoop : M unit :=
  a <- get_this ;;
  match typingLoopSource a with
  | Some s =>
      try_catch (source_stop s) (fun _ => ret tt) ;;
      set_this (with_typingLoopSource None)
  | None => ret tt
  end ;;
  a <- get_this ;;
  match typingLoopTimeout a with
  | Some id =>
      clearTimeout id ;;
      set_this (with_typingLoopTimeout None)
  | None => ret tt
  end.

(** [localStorage.setItem(CONFIG.sound.storageKey, String(enabled))]:
    raises when the page's storage is denied or full. *)
Definition setItem (b : bool) : M unit :=
  h <- get_host ;;
  match storage_error h with
  | Some e => throw e
  | None => set_host (with_storage (Some b))
  end.

(** [setEnabled(enabled)] *)
Definition setEnabled (b : bool) : M unit :=
  set_this (with_enabled b) ;;
  a <- get_this ;;
  match masterGain a, context a with
  | Some g, Some ctx =>
      let ramp :=
        linearRampToValueAtTime (if b then masterVolume CONFIG else 0)
          (currentTime ctx + fadeOutDuration CONFIG / 1000) in
      set_this (with_masterGain
        (Some {| gain_value := gain_value g;
                 gain_events := gain_events g ++ [ramp] |}))
  | _, _ => ret tt
  end ;;
  (if negb b then stopTypingLoop else ret tt) ;;
  setItem b.

(** [toggle()] *)
Definition toggle : M bool :=
  a <- get_this ;;
  setEnabled (negb (enabled a)) ;;
  a <- get_this ;;
  ret (enabled a).

(** [context.close()] returns a promise; on a context that is already
    closed the promise is rejected, and nothing is raised. *)
Definition context_close (ctx : AudioContext) : M unit :=
  match ctx_state ctx with
  | Closed => set_host (fun h => with_rejections (S (rejections h)) h)
  | _ =>
      set_this (with_context
        (Some {| ctx_state := Closed; currentTime := currentTime ctx;
                 sampleRate := sampleRate ctx |}))
  end.

(** [dispose()] *)
Definition dispose : M unit :=
  stopTypingLoop ;;
  a <- get_this ;;
  match context a with
  | Some ctx => context_close ctx
  | None => ret tt
  end.

(** What the browser answers while [init()] runs: the context the
    constructor returns ([None] when it raises), whether
    [context.resume()] fulfils, and what the two [loadSound] calls
    decode ([None] for any failure, which [loadSound] turns into
    [null]). *)
Record InitAnswers : Type := {
  new_AudioContext : option AudioContext;
  resume_fulfils : bool;
  loopBuffer : option AudioBuffer;
  pressBuffer : option AudioBuffer
}.

(** [loadSounds()]: neither [loadSound] promise rejects. *)
Definition loadSounds (env : InitAnswers) : M unit :=
  set_this (with_sounds (loopBuffer env) (pressBuffer env)).

(** [init()], with its awaits run to completion against [env]. *)
Definition init (env : InitAnswers) : M unit :=
  a <- get_this ;;
  if initialized a then ret tt
  else
    try_catch
      (match new_AudioContext env with
       | None => throw TypeError
       | Some ctx =>
           set_this (with_context (Some ctx)) ;;
           set_this (with_masterGain
             (Some {| gain_value := masterVolume CONFIG;
                      gain_events := [] |})) ;;
           match ctx_state ctx with
           | Suspended =>
               if resume_fulfils env then
                 set_this (with_context
                   (Some {| ctx_state := Running;
                            currentTime := currentTime ctx;
                            sampleRate := sampleRate ctx |}))
               else throw InvalidStateError
           | _ => ret tt
           end ;;
           buffer <- createBrownNoiseBuffer ;;
           set_this (with_brownNoiseBuffer (Some buffer)) ;;
           set_this (with_initialized true) ;;
           loadSounds env
       end)
      (fun _ => set_this (with_enabled false)).

(** ** The event loop

    One task of the page as far as this class is concerned: a call of
    a public method, or the host running the callback of a pending
    timer (which removes the timer from the table first).  A task that
    raises ends there and the next task runs. *)
Inductive Task : Type :=
| call_startTypingLoop
| call_stopTypingLoop
| call_playKeyPress
| call_setEnabled (b : bool)
| call_dispose
| timer_fires (id : positive).

Definition fire (id : positive) : M unit :=
  h <- get_host ;;
  match timers h !! id with
  | Some _ =>
      clearTimeout id ;;
      scheduleNextKey
  | None => ret tt
  end.

Definition perform (t : Task) : M unit :=
  match t with
  | call_startTypingLoop => startTypingLoop
  | call_stopTypingLoop => stopTypingLoop
  | call_playKeyPress => playKeyPress
  | call_setEnabled b => setEnabled b
  | call_dispose => dispose
  | timer_fires id => fire id
  end.

Fixpoint run (ts : list Task) (w : World) : World :=
  match ts with
  | [] => w
  | t :: ts' => run ts' (snd (perform t w))
  end.

End Engine.

(** ** Views for the statements *)

(** The recurrence of the leaky integrator as the specification words
    it: [state 0 = s0] and
    [state (n+1) = (state n + 0.02 * white n) / 1.02]. *)
Fixpoint integrator (white : nat -> Q) (s0 : Q) (n : nat) : Q :=
  match n with
  | O => s0
  | S n' => (integrator white s0 n' + 0.02 * white n') / 1.02
  end.

(** The white sample of iteration [n] of a loop that starts at draw [k]:
    [Math.random() * 2 - 1]. *)
Definition white (random : nat -> Q) (k n : nat) : Q :=
  random (k + n)%nat * 2 - 1.

(** The world after [n] further draws of [Math.random]. *)
Definition advance (n : nat) (w : World) : World :=
  {| this := this w; host := with_draws (draws (host w) + n) (host w) |}.

(** The modal voices among the nodes of a graph, in creation order. *)
Fixpoint modal_voices (g : list Node) : list ModalVoice :=
  match g with
  | [] => []
  | ModalNode v :: g' => v :: modal_voices g'
  | SampleNode _ :: g' => modal_voices g'
  end.

(** [x] lies within [pct] (a fraction) of [base]. *)
Definition within (base pct x : Q) : Prop :=
  base - pct * base <= x /\ x <= base + pct * base.

(** The number of pending timers. *)
Definition pending (w : World) : nat := size (timers (host w)).

(** Every pending timer is the one [typingLoopTimeout] holds. *)
Definition tidy (w : World) : Prop :=
  forall id, is_Some (timers (host w) !! id) ->
             typingLoopTimeout (this w) = Some id.

(** A run in which [startTypingLoop] is only called while no timer is
    pending. *)
Fixpoint no_restart (random : nat -> Q) (CONFIG : AudioConfig)
    (stop_throws : LoopSource -> bool) (ts : list Task) (w : World) : Prop :=
  match ts with
  | [] => True
  | t :: ts' =>
      (t = call_startTypingLoop -> timers (host w) = ∅) /\
      no_restart random CONFIG stop_throws ts'
        (snd (perform random CONFIG stop_throws t w))
  end.

(** ** A concrete page, for running the model *)

Module Demo.

(** A fixed stream of draws in [0, 1): 0.11, 0.48, 0.85, 0.22, ... *)
Definition random (n : nat) : Q :=
  Z.of_nat ((n * 37 + 11) mod 100) # 100.

Definition CONFIG : AudioConfig :=
  {| masterVolume := 0.5; loopVolume := 0.3; keyPressVolume := 0.6;
     fadeInDuration := 500; fadeOutDuration := 300 |}.

Definition stop_throws (s : LoopSource) : bool := true.

Definition new_context : AudioContext :=
  {| ctx_state := Running; currentTime := 2; sampleRate := 8000 |}.

Definition sample : AudioBuffer :=
  {| channelData := [0; 0.5; -0.25]; buffer_rate := 8000 |}.

(** No sound file is found: the synthetic paths are used. *)
Definition synthetic : InitAnswers :=
  {| new_AudioContext := Some new_context; resume_fulfils := true;
     loopBuffer := None; pressBuffer := None |}.

(** Both sound files load. *)
Definition sampled : InitAnswers :=
  {| new_AudioContext := Some new_context; resume_fulfils := true;
     loopBuffer := Some sample; pressBuffer := Some sample |}.

Definition created : World := {| this := constructor; host := fresh_host |}.

(** The noise buffer [init()] generates from the first 400 draws. *)
Definition noise : AudioBuffer :=
  match fst (createBrownNoiseBuffer random
               {| this := with_context (Some new_context) constructor;
                  host := fresh_host |}) with
  | Normal buffer => buffer
  | Throw _ => {| channelData := []; buffer_rate := 0 |}
  end.

Definition master : GainNode :=
  {| gain_value := masterVolume CONFIG; gain_events := [] |}.

(** The world after [new AudioManager()] and [await init()] when no
    sound file is found. *)
Definition ready : World :=
  {| this :=
       {| context := Some new_context; masterGain := Some master;
          typingLoopSource := None; typingLoopBuffer := None;
          keyPressBuffer := None; brownNoiseBuffer := Some noise;
          enabled := true; initialized := true;
          typingLoopTimeout := None |};
     host := with_draws 400 fresh_host |}.

(** The same when both sound files load. *)
Definition ready_sampled : World :=
  {| this := with_sounds (Some sample) (Some sample) (this ready);
     host := host ready |}.

(** A world whose context exists but whose noise buffer is still to be
    made, as inside [init()]. *)
Definition in_init : World :=
  {| this := with_context (Some new_context) constructor;
     host := fresh_host |}.

End Demo.

(** The literal mode tables of the specification, one entry per mode:
    base frequency, the documented tolerance of the frequency (3% for
    body modes, 5% for case and low-frequency modes) and base gain. *)
Definition spec_click_modes : list (Q * Q * Q) :=
  [(1100, 0.03, 0.5); (2200, 0.03, 0.25); (3800, 0.03, 0.1)].

Definition spec_impact_modes : list (Q * Q * Q) :=
  [(160, 0.05, 0.7); (280, 0.05, 0.5); (520, 0.03, 1.0); (780, 0.03, 0.6);
   (1150, 0.03, 0.35); (1800, 0.03, 0.2); (2900, 0.03, 0.1)].

Definition spec_upstroke_modes : list (Q * Q * Q) :=
  [(1250, 0.03, 0.3); (2000, 0.03, 0.15); (200, 0.05, 0.2)].

(** A built filter stage against its table entry: the centre frequency
    within the entry's tolerance of the base frequency, the mode gain
    within 15% of the base gain. *)
Definition mode_within (f : ModeFilter) (entry : Q * Q * Q) : Prop :=
  let '(base, pct, g) := entry in
  within base pct (filter_frequency f) /\
  within g 0.15 (modeGain_value f).

(** ** Proof automation *)

(** Symbolic execution of the methods on a world given by its fields. *)
Ltac exec :=
  cbv beta iota zeta delta
    [bind ret throw try_catch get_this get_host set_this set_host
     the_context connect_masterGain setTimeout clearTimeout push_node
     Math_random rand mode forEach_mode triggerModalImpact
     playModalKeypress playBuffer playKeyPress scheduleNextKey
     startSyntheticTypingLoop startTypingLoop source_stop stopTypingLoop
     setEnabled toggle context_close dispose fire perform run
     this host context masterGain typingLoopSource typingLoopBuffer
     keyPressBuffer brownNoiseBuffer enabled initialized typingLoopTimeout
     draws timers next_timer graph storage rejections storage_error
     setItem
     with_context with_masterGain with_typingLoopSource with_sounds
     with_brownNoiseBuffer with_enabled with_initialized
     with_typingLoopTimeout with_draws with_timers with_graph with_storage
     with_rejections modes duration cfg_masterGain freq mode_Q gain
     negb orb andb fst snd].

Ltac fields :=
  cbn [this host context masterGain typingLoopSource typingLoopBuffer
       keyPressBuffer brownNoiseBuffer enabled initialized
       typingLoopTimeout draws timers next_timer graph storage
       rejections storage_error] in *.

Ltac open_world w :=
  let c := fresh "c" in let mg := fresh "mg" in let ls := fresh "ls" in
  let lb := fresh "lb" in let kb := fresh "kb" in let bn := fresh "bn" in
  let en := fresh "en" in let ini := fresh "ini" in
  let tl := fresh "tl" in let d := fresh "d" in let tm := fresh "tm" in
  let nx := fresh "nx" in let gr := fresh "gr" in let st := fresh "st" in
  let rj := fresh "rj" in let se := fresh "se" in
  destruct w as [[c mg ls lb kb bn en ini tl] [d tm nx gr st rj se]];
  fields.

(** Instantiate the range of the draws at every draw the goal mentions. *)
Ltac draw_ranges Hr :=
  repeat match goal with
  | |- context [?random ?n] =>
      lazymatch type of Hr with
      | forall k, 0 <= random k < 1 =>
          lazymatch goal with
          | _ : 0 <= random n < 1 |- _ => fail
          | _ => pose proof (Hr n)
          end
      end
  end.

(** ** Further views *)

(** The object is wired: a context never comes without its master gain,
    and an initialized object has its context and its noise buffer. *)
Definition wired (a : AudioManager) : Prop :=
  (is_Some (context a) -> is_Some (masterGain a)) /\
  (initialized a = true ->
   is_Some (context a) /\ is_Some (brownNoiseBuffer a)).

(** Every task of a run completes normally. *)
Fixpoint never_raises (random : nat -> Q) (CONFIG : AudioConfig)
    (stop_throws : LoopSource -> bool) (ts : list Task) (w : World) : Prop :=
  match ts with
  | [] => True
  | t :: ts' =>
      fst (perform random CONFIG stop_throws t w) = Normal tt /\
      never_raises random CONFIG stop_throws ts'
        (snd (perform random CONFIG stop_throws t w))
  end.

(** Handles are handed out in increasing order: every pending timer has
    a handle below the next one. *)
Definition fresh_handles (w : World) : Prop :=
  forall id, is_Some (timers (host w) !! id) ->
             (id < next_timer (host w))%positive.

(** The envelope of a voice is the source's three automation events, in
    chronological order and with positive values throughout. *)
Definition envelope_in_order (v : ModalVoice) : Prop :=
  exists t0 t1 t2,
    exciterGain_events v =
      [setValueAtTime 0.001 t0; linearRampToValueAtTime 1.0 t1;
       exponentialRampToValueAtTime 0.001 t2] /\
    t0 = exciter_start v /\ t0 < t1 /\ t1 < t2 /\ t2 < exciter_stop v.

(** A filter stage carries exactly the literal frequency and gain of its
    table entry (up to equality of rationals). *)
Definition mode_exact (f : ModeFilter) (entry : Q * Q * Q) : Prop :=
  let '(base, _, g) := entry in
  filter_frequency f == base /\ modeGain_value f == g.

Module Midpoint.

(** The source of draws that always answers 1/2. *)
Definition random (n : nat) : Q := 0.5.

End Midpoint.

(** * Properties *)

(** ** The concrete page

    [Demo.ready] and [Demo.ready_sampled] are what [init()] leaves. *)

Lemma Demo_init_synthetic :
  snd (init Demo.random Demo.CONFIG Demo.synthetic Demo.created) = Demo.ready.
Proof. vm_cast_no_check (eq_refl Demo.ready). Qed.

Lemma Demo_init_sampled :
  snd (init Demo.random Demo.CONFIG Demo.sampled Demo.created)
  = Demo.ready_sampled.
Proof. vm_cast_no_check (eq_refl Demo.ready_sampled). Qed.

(** ** The noise exciter *)

Lemma integrator_shift (wh : nat -> Q) (s0 : Q) (n : nat) :
  integrator wh s0 (S n) =
  integrator (fun j => wh (S j)) ((s0 + 0.02 * wh O) / 1.02) n.
Proof.
  induction n as [|n IH]; [reflexivity|].
  change (integrator wh s0 (S (S n)))
    with ((integrator wh s0 (S n) + 0.02 * wh (S n)) / 1.02).
  rewrite IH. reflexivity.
Qed.

Lemma integrator_ext (wh wh' : nat -> Q) (s0 : Q) (n : nat) :
  (forall j, wh j = wh' j) -> integrator wh s0 n = integrator wh' s0 n.
Proof.
  intros Hext. induction n as [|n IH]; [reflexivity|].
  simpl. rewrite IH, Hext. reflexivity.
Qed.

Lemma advance_0 (w : World) : advance 0 w = w.
Proof.
  destruct w as [a [d t n g s r se]]. unfold advance, with_draws. simpl.
  rewrite Nat.add_0_r. reflexivity.
Qed.

Lemma advance_S (n : nat) (w : World) :
  advance n (advance 1 w) = advance (S n) w.
Proof.
  destruct w as [a [d t k g s r se]]. unfold advance, with_draws. simpl.
  do 2 f_equal. lia.
Qed.

Lemma Math_random_run (random : nat -> Q) (w : World) :
  Math_random random w = (Normal (random (draws (host w))), advance 1 w).
Proof.
  destruct w as [a [d t k g s r se]].
  unfold Math_random, bind, get_host, set_host, ret, advance, with_draws.
  simpl. rewrite Nat.add_1_r. reflexivity.
Qed.

Lemma brown_loop_run (random : nat -> Q) (n : nat) :
  forall (lastOut : Q) (w : World),
  exists data,
    brown_loop random n lastOut w = (Normal data, advance n w) /\
    length data = n /\
    forall i, (i < n)%nat ->
      nth i data 0 =
      integrator (white random (draws (host w))) lastOut (S i) * 3.5.
Proof.
  induction n as [|n IH]; intros lastOut w.
  - exists []. rewrite advance_0.
    split; [reflexivity | split; [reflexivity | intros i Hi; lia]].
  - set (s1 := (lastOut + 0.02 * (random (draws (host w)) * 2 - 1)) / 1.02).
    destruct (IH s1 (advance 1 w)) as (data & Hrun & Hlen & Hnth).
    exists (s1 * 3.5 :: data). split; [|split].
    + cbn [brown_loop]. unfold bind at 1. rewrite Math_random_run.
      unfold bind at 1. fold s1. rewrite Hrun. unfold ret.
      rewrite advance_S. reflexivity.
    + simpl. rewrite Hlen. reflexivity.
    + intros [|i] Hi.
      * simpl. unfold white. rewrite Nat.add_0_r. reflexivity.
      * cbn [nth]. rewrite Hnth by lia.
        rewrite (integrator_shift (white random (draws (host w))) lastOut).
        f_equal. unfold white at 3. rewrite Nat.add_0_r. fold s1.
        apply integrator_ext. intros j. unfold white, advance. simpl.
        do 3 f_equal. lia.
Qed.

Lemma integrator_bounded (wh : nat -> Q) (n : nat) :
  (forall j, -1 <= wh j <= 1) -> -1 <= integrator wh 0 n <= 1.
Proof.
  intros Hwh. induction n as [|n IH]; cbn [integrator].
  - lra.
  - specialize (Hwh n). unfold Qdiv.
    change (/ 1.02) with (100 # 102). lra.
Qed.

Lemma white_range (random : nat -> Q) (k : nat) :
  (forall n, 0 <= random n < 1) -> forall n, -1 <= white random k n < 1.
Proof.
  intros Hr n. unfold white. specialize (Hr (k + n)%nat). lra.
Qed.

Lemma createBrownNoiseBuffer_run (random : nat -> Q) (w : World)
    (ctx : AudioContext) :
  context (this w) = Some ctx ->
  (0 < Qfloor (sampleRate ctx * 0.05))%Z ->
  exists data,
    createBrownNoiseBuffer random w =
      (Normal {| channelData := data; buffer_rate := sampleRate ctx |},
       advance (Z.to_nat (Qfloor (sampleRate ctx * 0.05))) w) /\
    length data = Z.to_nat (Qfloor (sampleRate ctx * 0.05)) /\
    forall i, (i < length data)%nat ->
      nth i data 0 =
      integrator (white random (draws (host w))) 0 (S i) * 3.5.
Proof.
  intros Hctx Hlen.
  destruct (brown_loop_run random
              (Z.to_nat (Qfloor (sampleRate ctx * 0.05))) 0 w)
    as (data & Hrun & Hlength & Hnth).
  exists data. split; [|split; [exact Hlength|]].
  - unfold createBrownNoiseBuffer, the_context, bind, get_this.
    rewrite Hctx. unfold ret at 1.
    destruct (Z.leb_spec (Qfloor (sampleRate ctx * 0.05)) 0) as [Hle|_];
      [lia|].
    rewrite Hrun. reflexivity.
  - intros i Hi. apply Hnth. rewrite <- Hlength. exact Hi.
Qed.

Lemma Demo_random_range (n : nat) : 0 <= Demo.random n < 1.
Proof.
  unfold Demo.random.
  pose proof (Nat.mod_upper_bound (n * 37 + 11) 100) as Hm.
  unfold Qle, Qlt. cbn [Qnum Qden]. lia.
Qed.

(** C2, as amended: on a context whose buffer length
    [floor(sampleRate * 0.05)] is positive and for draws in [0, 1),
    [createBrownNoiseBuffer] returns a buffer of exactly that length, and
    sample [i] equals [state (i+1) * 3.5], where [state 0 = 0],
    [state (n+1) = (state n + 0.02 * white n) / 1.02] and [white n], the
    [n]-th draw of the call mapped by [r * 2 - 1], lies in [-1, 1). *)
Theorem createBrownNoiseBuffer_samples (random : nat -> Q) (w : World)
    (ctx : AudioContext) :
  (forall n, 0 <= random n < 1) ->
  context (this w) = Some ctx ->
  (0 < Qfloor (sampleRate ctx * 0.05))%Z ->
  exists buffer w',
    createBrownNoiseBuffer random w = (Normal buffer, w') /\
    Z.of_nat (length (channelData buffer)) =
      Qfloor (sampleRate ctx * 0.05) /\
    (forall i, (i < length (channelData buffer))%nat ->
       nth i (channelData buffer) 0 =
       integrator (white random (draws (host w))) 0 (S i) * 3.5) /\
    (forall n, -1 <= white random (draws (host w)) n < 1).
Proof.
  intros Hr Hctx Hlen.
  destruct (createBrownNoiseBuffer_run random w ctx Hctx Hlen)
    as (data & Hrun & Hlength & Hnth).
  eexists. eexists. split; [exact Hrun|]. cbn [channelData].
  split; [rewrite Hlength; lia|].
  split; [exact Hnth|]. apply white_range, Hr.
Qed.

Lemma createBrownNoiseBuffer_samples_witness :
  exists buffer w',
    createBrownNoiseBuffer Demo.random Demo.in_init = (Normal buffer, w') /\
    Z.of_nat (length (channelData buffer)) = 400%Z /\
    (forall i, (i < length (channelData buffer))%nat ->
       nth i (channelData buffer) 0 =
       integrator (white Demo.random 0) 0 (S i) * 3.5) /\
    (forall n, -1 <= white Demo.random 0 n < 1).
Proof.
  apply (createBrownNoiseBuffer_samples Demo.random Demo.in_init
           Demo.new_context).
  - exact Demo_random_range.
  - reflexivity.
  - vm_compute. reflexivity.
Defined.

(** C2, as stated, fails on the first sample: with [state 0 = 0] the
    claim makes sample 0 equal to [0 * 3.5], while the loop stores the
    state after its first update (the first draw, 0.11, gives white = -0.78). *)
Lemma createBrownNoiseBuffer_sample_0_not_state_0 :
  exists buffer w',
    createBrownNoiseBuffer Demo.random Demo.in_init = (Normal buffer, w') /\
    ~ nth 0 (channelData buffer) 0 ==
      integrator (white Demo.random 0) 0 0 * 3.5.
Proof.
  destruct (createBrownNoiseBuffer_run Demo.random Demo.in_init
              Demo.new_context) as (data & Hrun & Hlen & Hnth).
  - reflexivity.
  - vm_compute. reflexivity.
  - eexists. eexists. split; [exact Hrun|]. cbn [channelData].
    assert (Hlen' : length data = 400%nat) by (rewrite Hlen; reflexivity).
    rewrite Hnth by lia. vm_compute. discriminate.
Qed.

(** C7: for draws in [0, 1), hence white samples in [-1, 1], every
    sample of the generated buffer is a state of the integrator times
    3.5, that state lies in [-1, 1], and the sample lies in
    [-3.5, 3.5]. *)
Theorem createBrownNoiseBuffer_bounded (random : nat -> Q) (w : World)
    (ctx : AudioContext) :
  (forall n, 0 <= random n < 1) ->
  context (this w) = Some ctx ->
  (0 < Qfloor (sampleRate ctx * 0.05))%Z ->
  exists buffer w',
    createBrownNoiseBuffer random w = (Normal buffer, w') /\
    (forall n, -1 <= integrator (white random (draws (host w))) 0 n <= 1) /\
    Forall (fun sample =>
              (exists state, sample = state * 3.5 /\ -1 <= state <= 1) /\
              -3.5 <= sample <= 3.5)
           (channelData buffer).
Proof.
  intros Hr Hctx Hlen.
  destruct (createBrownNoiseBuffer_run random w ctx Hctx Hlen)
    as (data & Hrun & Hlength & Hnth).
  assert (Hb : forall n,
             -1 <= integrator (white random (draws (host w))) 0 n <= 1).
  { intros n. apply integrator_bounded. intros j.
    pose proof (white_range random (draws (host w)) Hr j). lra. }
  eexists. eexists. split; [exact Hrun|]. cbn [channelData].
  split; [exact Hb|].
  apply Forall_forall. intros x Hx. apply list_elem_of_In in Hx.
  apply (In_nth _ _ 0) in Hx. destruct Hx as (i & Hi & <-).
  rewrite (Hnth i Hi). specialize (Hb (S i)).
  split; [eexists; split; [reflexivity | exact Hb] | lra].
Qed.

Lemma createBrownNoiseBuffer_bounded_witness :
  exists buffer w',
    createBrownNoiseBuffer Demo.random Demo.in_init = (Normal buffer, w') /\
    (forall n, -1 <= integrator (white Demo.random 0) 0 n <= 1) /\
    Forall (fun sample =>
              (exists state, sample = state * 3.5 /\ -1 <= state <= 1) /\
              -3.5 <= sample <= 3.5)
           (channelData buffer).
Proof.
  apply (createBrownNoiseBuffer_bounded Demo.random Demo.in_init
           Demo.new_context).
  - exact Demo_random_range.
  - reflexivity.
  - vm_compute. reflexivity.
Defined.

(** ** The keypress choreography *)

(** C1: with the context, the noise buffer and the master gain in place
    (as after [init()]), [playModalKeypress] adds exactly three voices to
    the graph; they start at T, T+0.0015 and T+0.055 for T the captured
    [currentTime], are built from durations 0.002, 0.004, 0.0015 and
    master gains 0.4, 0.8, 0.25, and each exciter stops at
    start + duration + 0.15, which is not before start + duration. *)
Theorem playModalKeypress_three_voices (random : nat -> Q)
    (CONFIG : AudioConfig) (w : World) (ctx : AudioContext)
    (noise : AudioBuffer) (g : GainNode) :
  context (this w) = Some ctx ->
  brownNoiseBuffer (this w) = Some noise ->
  masterGain (this w) = Some g ->
  exists v1 v2 v3 w',
    playModalKeypress random CONFIG w = (Normal tt, w') /\
    graph (host w') =
      graph (host w) ++ [ModalNode v1; ModalNode v2; ModalNode v3] /\
    map exciter_start [v1; v2; v3] =
      [currentTime ctx; currentTime ctx + 0.0015; currentTime ctx + 0.055] /\
    map (fun v => duration (voice_config v)) [v1; v2; v3] =
      [0.002; 0.004; 0.0015] /\
    map (fun v => cfg_masterGain (voice_config v)) [v1; v2; v3] =
      [0.4; 0.8; 0.25] /\
    Forall (fun v =>
              exciter_stop v =
                exciter_start v + duration (voice_config v) + 0.15 /\
              exciter_start v + duration (voice_config v) <= exciter_stop v)
           [v1; v2; v3].
Proof.
  intros Hc Hb Hg. open_world w. subst c bn mg.
  do 4 eexists. split; [exec; reflexivity|]. fields.
  split; [rewrite <- !app_assoc; reflexivity|].
  cbn [map exciter_start exciter_stop voice_config duration cfg_masterGain].
  repeat split; try reflexivity.
  repeat (apply List.Forall_cons;
          [split; [reflexivity
                  | cbn [exciter_start exciter_stop voice_config duration];
                    lra]|]).
  apply List.Forall_nil.
Qed.

Lemma playModalKeypress_three_voices_witness :
  exists v1 v2 v3 w',
    playModalKeypress Demo.random Demo.CONFIG Demo.ready = (Normal tt, w') /\
    graph (host w') =
      graph (host Demo.ready) ++ [ModalNode v1; ModalNode v2; ModalNode v3] /\
    map exciter_start [v1; v2; v3] = [2; 2 + 0.0015; 2 + 0.055] /\
    map (fun v => duration (voice_config v)) [v1; v2; v3] =
      [0.002; 0.004; 0.0015] /\
    map (fun v => cfg_masterGain (voice_config v)) [v1; v2; v3] =
      [0.4; 0.8; 0.25] /\
    Forall (fun v =>
              exciter_stop v =
                exciter_start v + duration (voice_config v) + 0.15 /\
              exciter_start v + duration (voice_config v) <= exciter_stop v)
           [v1; v2; v3].
Proof.
  apply (playModalKeypress_three_voices Demo.random Demo.CONFIG Demo.ready
           Demo.new_context Demo.noise Demo.master).
  - reflexivity.
  - reflexivity.
  - reflexivity.
Defined.

(** C3: for draws in [0, 1), every filter stage built by the three
    events has its centre frequency within 3% of the literal base
    frequency for the body modes (1100, 2200, 3800, 520, 780, 1150, 1800,
    2900, 1250, 2000 Hz), within 5% for the case and low-frequency modes
    (160, 280, 200 Hz), and its mode gain within 15% of the base gain. *)
Theorem playModalKeypress_modes_within (random : nat -> Q)
    (CONFIG : AudioConfig) (w : World) (ctx : AudioContext)
    (noise : AudioBuffer) (g : GainNode) :
  (forall n, 0 <= random n < 1) ->
  context (this w) = Some ctx ->
  brownNoiseBuffer (this w) = Some noise ->
  masterGain (this w) = Some g ->
  exists click impact upstroke w',
    playModalKeypress random CONFIG w = (Normal tt, w') /\
    graph (host w') =
      graph (host w) ++
      [ModalNode click; ModalNode impact; ModalNode upstroke] /\
    Forall2 mode_within (voice_filters click) spec_click_modes /\
    Forall2 mode_within (voice_filters impact) spec_impact_modes /\
    Forall2 mode_within (voice_filters upstroke) spec_upstroke_modes.
Proof.
  intros Hr Hc Hb Hg. open_world w. subst c bn mg.
  do 4 eexists. split; [exec; reflexivity|]. fields.
  split; [rewrite <- !app_assoc; reflexivity|].
  cbn [voice_filters].
  unfold spec_click_modes, spec_impact_modes, spec_upstroke_modes.
  repeat split;
    repeat (apply List.Forall2_cons;
            [unfold mode_within, within;
             cbn [filter_frequency modeGain_value];
             draw_ranges Hr; lra|]);
    apply List.Forall2_nil.
Qed.

Lemma playModalKeypress_modes_within_witness :
  exists click impact upstroke w',
    playModalKeypress Demo.random Demo.CONFIG Demo.ready = (Normal tt, w') /\
    graph (host w') =
      graph (host Demo.ready) ++
      [ModalNode click; ModalNode impact; ModalNode upstroke] /\
    Forall2 mode_within (voice_filters click) spec_click_modes /\
    Forall2 mode_within (voice_filters impact) spec_impact_modes /\
    Forall2 mode_within (voice_filters upstroke) spec_upstroke_modes.
Proof.
  apply (playModalKeypress_modes_within Demo.random Demo.CONFIG Demo.ready
           Demo.new_context Demo.noise Demo.master).
  - exact Demo_random_range.
  - reflexivity.
  - reflexivity.
  - reflexivity.
Defined.

(** ** Choosing the sound source *)

Lemma modal_voices_app (g1 g2 : list Node) :
  modal_voices (g1 ++ g2) = modal_voices g1 ++ modal_voices g2.
Proof.
  induction g1 as [|[v|s] g1 IH]; cbn [modal_voices app].
  - reflexivity.
  - rewrite IH. reflexivity.
  - exact IH.
Qed.

(** C6: on an enabled, initialized engine (context and master gain in
    place), [playKeyPress] with a loaded sample builds exactly one sample
    voice on that buffer, with playback rate [0.95 + r * 0.1] for the
    next draw [r] (so in [0.95, 1.05), inside the rough [0.95, 1.10]) and
    gain [keyPressVolume], and no modal voice; without a sample it is
    [playModalKeypress], which adds the three modal voices. *)
Theorem playKeyPress_selects_source (random : nat -> Q)
    (CONFIG : AudioConfig) (w : World) (ctx : AudioContext)
    (noise : AudioBuffer) (g : GainNode) :
  (forall n, 0 <= random n < 1) ->
  enabled (this w) = true ->
  initialized (this w) = true ->
  context (this w) = Some ctx ->
  brownNoiseBuffer (this w) = Some noise ->
  masterGain (this w) = Some g ->
  (forall buffer, keyPressBuffer (this w) = Some buffer ->
     exists voice w',
       playKeyPress random CONFIG w = (Normal tt, w') /\
       graph (host w') = graph (host w) ++ [SampleNode voice] /\
       modal_voices (graph (host w')) = modal_voices (graph (host w)) /\
       sample_buffer voice = buffer /\
       playbackRate voice = 0.95 + random (draws (host w)) * 0.1 /\
       0.95 <= playbackRate voice < 1.05 /\
       playbackRate voice <= 1.10 /\
       pressGain_value voice = keyPressVolume CONFIG) /\
  (keyPressBuffer (this w) = None ->
     playKeyPress random CONFIG w = playModalKeypress random CONFIG w /\
     exists v1 v2 v3 w',
       playKeyPress random CONFIG w = (Normal tt, w') /\
       graph (host w') =
         graph (host w) ++ [ModalNode v1; ModalNode v2; ModalNode v3]).
Proof.
  intros Hr He Hi Hc Hb Hg. open_world w. subst en ini c bn mg. split.
  - intros buffer Hk. subst kb.
    do 2 eexists. split; [exec; reflexivity|]. fields.
    split; [reflexivity|].
    split; [rewrite modal_voices_app, app_nil_r; reflexivity|].
    cbn [sample_buffer playbackRate pressGain_value].
    specialize (Hr d). repeat split; try reflexivity; lra.
  - intros Hk. subst kb. split; [reflexivity|].
    do 4 eexists. split; [exec; reflexivity|]. fields.
    rewrite <- !app_assoc. reflexivity.
Qed.

Lemma playKeyPress_selects_source_witness :
  (forall buffer,
     keyPressBuffer (this Demo.ready_sampled) = Some buffer ->
     exists voice w',
       playKeyPress Demo.random Demo.CONFIG Demo.ready_sampled
         = (Normal tt, w') /\
       graph (host w') = graph (host Demo.ready_sampled) ++ [SampleNode voice] /\
       modal_voices (graph (host w'))
         = modal_voices (graph (host Demo.ready_sampled)) /\
       sample_buffer voice = buffer /\
       playbackRate voice
         = 0.95 + Demo.random (draws (host Demo.ready_sampled)) * 0.1 /\
       0.95 <= playbackRate voice < 1.05 /\
       playbackRate voice <= 1.10 /\
       pressGain_value voice = keyPressVolume Demo.CONFIG) /\
  (keyPressBuffer (this Demo.ready_sampled) = None ->
     playKeyPress Demo.random Demo.CONFIG Demo.ready_sampled
       = playModalKeypress Demo.random Demo.CONFIG Demo.ready_sampled /\
     exists v1 v2 v3 w',
       playKeyPress Demo.random Demo.CONFIG Demo.ready_sampled
         = (Normal tt, w') /\
       graph (host w') =
         graph (host Demo.ready_sampled)
         ++ [ModalNode v1; ModalNode v2; ModalNode v3]).
Proof.
  apply (playKeyPress_selects_source Demo.random Demo.CONFIG
           Demo.ready_sampled Demo.new_context Demo.noise Demo.master).
  - exact Demo_random_range.
  - reflexivity.
  - reflexivity.
  - reflexivity.
  - reflexivity.
  - reflexivity.
Defined.

(** C10: while the engine is disabled or not yet initialized,
    [playKeyPress] and [startTypingLoop] return at once and leave the
    whole world as it was: no node, no timer, no draw, no field
    change. *)
Theorem gated_calls_change_nothing (random : nat -> Q)
    (CONFIG : AudioConfig) (w : World) :
  enabled (this w) = false \/ initialized (this w) = false ->
  playKeyPress random CONFIG w = (Normal tt, w) /\
  startTypingLoop CONFIG w = (Normal tt, w).
Proof.
  intros H. open_world w.
  destruct H as [-> | ->]; [|destruct en]; split; reflexivity.
Qed.

Lemma gated_calls_change_nothing_witness :
  playKeyPress Demo.random Demo.CONFIG Demo.created
    = (Normal tt, Demo.created) /\
  startTypingLoop Demo.CONFIG Demo.created = (Normal tt, Demo.created).
Proof.
  apply (gated_calls_change_nothing Demo.random Demo.CONFIG Demo.created).
  right. reflexivity.
Defined.

(** ** The typing loop *)

(** C8: [startSyntheticTypingLoop], in any world [w] (a stopped loop
    with no timer pending included) and without any further condition,
    registers exactly one new timer with a delay of 500 ms and keeps its
    handle; and when a pending timer fires in a world [v] of an enabled,
    initialized engine with draws in [0, 1), the callback plays one
    keypress and registers the next timer with delay [100 + r * 150],
    where [r] is a draw made in this cycle and in no other (the 27th of
    the 27 the cycle consumes), so the delay lies in [100, 250). *)
Theorem synthetic_loop_delays (random : nat -> Q) (CONFIG : AudioConfig)
    (w v : World) (ctx : AudioContext) (noise : AudioBuffer) (g : GainNode)
    (id : positive) (delay : Q) :
  (exists w',
     startSyntheticTypingLoop w = (Normal tt, w') /\
     timers (host w') = <[next_timer (host w) := 500]> (timers (host w)) /\
     timers (host w') !! next_timer (host w) = Some 500 /\
     typingLoopTimeout (this w') = Some (next_timer (host w)) /\
     graph (host w') = graph (host w) /\
     draws (host w') = draws (host w)) /\
  ((forall n, 0 <= random n < 1) ->
   enabled (this v) = true ->
   context (this v) = Some ctx ->
   brownNoiseBuffer (this v) = Some noise ->
   masterGain (this v) = Some g ->
   timers (host v) !! id = Some delay ->
   exists v',
     fire random CONFIG id v = (Normal tt, v') /\
     length (modal_voices (graph (host v'))) =
       (length (modal_voices (graph (host v))) + 3)%nat /\
     draws (host v') = (draws (host v) + 27)%nat /\
     let nextDelay := 100 + random (draws (host v) + 26)%nat * 150 in
     timers (host v') =
       <[next_timer (host v) := nextDelay]> (delete id (timers (host v))) /\
     typingLoopTimeout (this v') = Some (next_timer (host v)) /\
     100 <= nextDelay < 250).
Proof.
  split.
  - open_world w.
    eexists. split; [exec; reflexivity|]. fields.
    repeat split; try reflexivity. apply lookup_insert_eq.
  - intros Hr He Hc Hb Hg Hid.
    open_world v. subst en c bn mg. eexists. split.
    + unfold fire, bind at 1, get_host. fields. rewrite Hid.
      exec. reflexivity.
    + fields.
      split; [rewrite !modal_voices_app, !length_app; cbn; lia|].
      split; [lia|].
      replace (d + 26)%nat with (Nat.iter 26 S d) by (cbn; lia).
      cbn [Nat.iter nat_rect].
      split; [reflexivity|]. split; [reflexivity|].
      match goal with |- context [random ?n] => specialize (Hr n) end.
      lra.
Qed.

Lemma synthetic_loop_delays_witness :
  let w := Demo.ready in
  let v := snd (startSyntheticTypingLoop Demo.ready) in
  timers (host w) = ∅ /\
  (exists w',
     startSyntheticTypingLoop w = (Normal tt, w') /\
     timers (host w') = <[next_timer (host w) := 500]> (timers (host w)) /\
     timers (host w') !! next_timer (host w) = Some 500 /\
     typingLoopTimeout (this w') = Some (next_timer (host w)) /\
     graph (host w') = graph (host w) /\
     draws (host w') = draws (host w)) /\
  (exists v',
     fire Demo.random Demo.CONFIG 1%positive v = (Normal tt, v') /\
     length (modal_voices (graph (host v'))) =
       (length (modal_voices (graph (host v))) + 3)%nat /\
     draws (host v') = (draws (host v) + 27)%nat /\
     let nextDelay := 100 + Demo.random (draws (host v) + 26)%nat * 150 in
     timers (host v') =
       <[next_timer (host v) := nextDelay]>
         (delete 1%positive (timers (host v))) /\
     typingLoopTimeout (this v') = Some (next_timer (host v)) /\
     100 <= nextDelay < 250).
Proof.
  split; [reflexivity|].
  destruct (synthetic_loop_delays Demo.random Demo.CONFIG
              Demo.ready (snd (startSyntheticTypingLoop Demo.ready))
              Demo.new_context Demo.noise Demo.master 1%positive 500)
    as [Hstart Hfire].
  split; [exact Hstart|].
  apply Hfire.
  - exact Demo_random_range.
  - reflexivity.
  - reflexivity.
  - reflexivity.
  - reflexivity.
  - reflexivity.
Defined.

(** C9: whatever the state, and whether or not the host's [stop()]
    raises, [stopTypingLoop] completes normally; a second call completes
    normally and changes nothing; [dispose] completes normally in any
    state, so also after the loop was stopped, after an earlier
    [dispose], and with voices that have ended. *)
Theorem redundant_calls_never_raise (stop_throws : LoopSource -> bool)
    (w : World) :
  let stopped := stopTypingLoop stop_throws w in
  let stopped_again := stopTypingLoop stop_throws (snd stopped) in
  let disposed := dispose stop_throws w in
  fst stopped = Normal tt /\
  stopped_again = (Normal tt, snd stopped) /\
  fst disposed = Normal tt /\
  fst (dispose stop_throws (snd stopped)) = Normal tt /\
  fst (dispose stop_throws (snd disposed)) = Normal tt.
Proof.
  open_world w.
  destruct ls as [s|], tl as [id|], c as [[[] t r]|];
    try destruct (stop_throws s) eqn:Hs;
    exec; rewrite ?Hs; repeat split; reflexivity.
Qed.

(** *** What holds of the loop *)

(** [playModalKeypress] touches neither the object's fields nor the
    timer table, however it ends. *)
Lemma playModalKeypress_frame (random : nat -> Q) (CONFIG : AudioConfig)
    (w : World) :
  let w' := snd (playModalKeypress random CONFIG w) in
  this w' = this w /\
  timers (host w') = timers (host w) /\
  next_timer (host w') = next_timer (host w).
Proof.
  open_world w. destruct c as [ctx|], bn as [noise|], mg as [g|];
    exec; repeat split; reflexivity.
Qed.

Lemma playKeyPress_frame (random : nat -> Q) (CONFIG : AudioConfig)
    (w : World) :
  let w' := snd (playKeyPress random CONFIG w) in
  this w' = this w /\
  timers (host w') = timers (host w) /\
  next_timer (host w') = next_timer (host w).
Proof.
  open_world w.
  destruct en, ini, kb as [k|], c as [ctx|], bn as [noise|], mg as [g|];
    exec; repeat split; reflexivity.
Qed.

(** X5: a firing that finds the engine disabled builds nothing, draws
    nothing, registers no timer and clears the handle. *)
Lemma fire_when_disabled (random : nat -> Q) (CONFIG : AudioConfig)
    (w : World) (id : positive) (delay : Q) :
  enabled (this w) = false ->
  timers (host w) !! id = Some delay ->
  exists w',
    fire random CONFIG id w = (Normal tt, w') /\
    graph (host w') = graph (host w) /\
    draws (host w') = draws (host w) /\
    timers (host w') = delete id (timers (host w)) /\
    typingLoopTimeout (this w') = None.
Proof.
  intros He Hid. open_world w. subst en. eexists. split.
  - unfold fire, bind at 1, get_host. fields. rewrite Hid.
    exec. reflexivity.
  - fields. repeat split; reflexivity.
Qed.

(** A handle that is not pending cannot fire: the task does nothing. *)
Lemma fire_not_pending (random : nat -> Q) (CONFIG : AudioConfig)
    (w : World) (id : positive) :
  timers (host w) !! id = None ->
  fire random CONFIG id w = (Normal tt, w).
Proof.
  intros Hid. open_world w.
  unfold fire, bind at 1, get_host. fields. rewrite Hid. reflexivity.
Qed.

Lemma tidy_pending (w : World) : tidy w -> (pending w <= 1)%nat.
Proof.
  intros Ht. unfold pending.
  destruct (typingLoopTimeout (this w)) as [h|] eqn:Hh.
  - assert (Hdom : dom (timers (host w)) ⊆ ({[h]} : gset positive)).
    { intros id Hin. apply elem_of_dom in Hin. apply Ht in Hin.
      rewrite Hh in Hin. injection Hin as <-. set_solver. }
    rewrite <- size_dom.
    apply subseteq_size in Hdom. rewrite size_singleton in Hdom. exact Hdom.
  - assert (Hempty : timers (host w) = ∅).
    { apply map_empty. intros id.
      destruct (timers (host w) !! id) eqn:Hid; [|reflexivity].
      assert (His : is_Some (timers (host w) !! id)) by (rewrite Hid; eauto).
      apply Ht in His. rewrite Hh in His. discriminate. }
    rewrite Hempty, map_size_empty. lia.
Qed.

(** Clearing the held handle empties a table all of whose timers are
    the held one. *)
Lemma cleared (tm : gmap positive Q) (tl : option positive) :
  (forall id, is_Some (tm !! id) -> tl = Some id) ->
  match tl with Some id => delete id tm | None => tm end = ∅.
Proof.
  intros Ht. apply map_empty. intros id. destruct tl as [h|].
  - destruct (decide (h = id)) as [->|Hne].
    + apply lookup_delete_eq.
    + rewrite lookup_delete_ne by exact Hne.
      destruct (tm !! id) eqn:Hid; [|reflexivity].
      assert (His : is_Some (tm !! id)) by (rewrite Hid; eauto).
      apply Ht in His. congruence.
  - destruct (tm !! id) eqn:Hid; [|reflexivity].
    assert (His : is_Some (tm !! id)) by (rewrite Hid; eauto).
    apply Ht in His. discriminate.
Qed.

(** After [stopTypingLoop] on a tidy world no timer is pending. *)
Lemma stopTypingLoop_clears (stop_throws : LoopSource -> bool) (w : World) :
  tidy w ->
  timers (host (snd (stopTypingLoop stop_throws w))) = ∅ /\
  typingLoopTimeout (this (snd (stopTypingLoop stop_throws w))) = None.
Proof.
  intros Ht. unfold tidy in Ht. open_world w.
  pose proof (cleared tm tl Ht) as Hc.
  destruct ls as [s|], tl as [id|];
    try destruct (stop_throws s) eqn:Hs;
    exec; rewrite ?Hs; split; first [exact Hc | reflexivity].
Qed.

Lemma tidy_empty (w : World) : timers (host w) = ∅ -> tidy w.
Proof.
  intros He id [x Hx]. rewrite He, lookup_empty in Hx. discriminate.
Qed.

Lemma tidy_single (w : World) (h : positive) (delay : Q) :
  timers (host w) = <[h := delay]> ∅ ->
  typingLoopTimeout (this w) = Some h ->
  tidy w.
Proof.
  intros Ht Hh id [x Hx]. rewrite Ht in Hx.
  destruct (decide (h = id)) as [->|Hne]; [exact Hh|].
  rewrite lookup_insert_ne, lookup_empty in Hx by exact Hne. discriminate.
Qed.

Lemma tidy_fired (w : World) (id : positive) :
  tidy w -> is_Some (timers (host w) !! id) ->
  delete id (timers (host w)) = ∅.
Proof.
  intros Ht His. apply map_empty. intros j.
  destruct (decide (id = j)) as [->|Hne]; [apply lookup_delete_eq|].
  rewrite lookup_delete_ne by exact Hne.
  destruct (timers (host w) !! j) eqn:Hj; [|reflexivity].
  assert (Hsj : is_Some (timers (host w) !! j)) by (rewrite Hj; eauto).
  apply Ht in His. apply Ht in Hsj. congruence.
Qed.

Lemma scheduleNextKey_tidy (random : nat -> Q) (CONFIG : AudioConfig)
    (w : World) :
  timers (host w) = ∅ -> tidy (snd (scheduleNextKey random CONFIG w)).
Proof.
  intros He. unfold scheduleNextKey, bind at 1, get_this.
  destruct (enabled (this w)); cbn [negb].
  - unfold bind at 1.
    pose proof (playModalKeypress_frame random CONFIG w) as Hf.
    destruct (playModalKeypress random CONFIG w) as [[[]|e] w2].
    + cbn [snd] in Hf. destruct Hf as (_ & Htm & _). rewrite He in Htm.
      open_world w2. subst tm. exec.
      apply (tidy_single _ nx (100 + random d * 150)); reflexivity.
    + cbn [snd] in *. destruct Hf as (_ & Htm & _).
      apply tidy_empty. rewrite Htm. exact He.
  - apply tidy_empty. exact He.
Qed.

Lemma setEnabled_true_frame (stop_throws : LoopSource -> bool)
    (CONFIG : AudioConfig) (w : World) :
  let w' := snd (setEnabled CONFIG stop_throws true w) in
  timers (host w') = timers (host w) /\
  typingLoopTimeout (this w') = typingLoopTimeout (this w).
Proof.
  open_world w. destruct mg as [g|], c as [ctx|], se as [e|]; exec;
    split; reflexivity.
Qed.

Lemma setEnabled_false_stops (stop_throws : LoopSource -> bool)
    (CONFIG : AudioConfig) (w : World) :
  tidy w ->
  timers (host (snd (setEnabled CONFIG stop_throws false w))) = ∅.
Proof.
  intros Ht. unfold tidy in Ht. open_world w.
  pose proof (cleared tm tl Ht) as Hc.
  destruct mg as [g|], c as [ctx|], ls as [s|], tl as [id|], se as [e|];
    try destruct (stop_throws s) eqn:Hs;
    exec; rewrite ?Hs; exact Hc.
Qed.

Lemma dispose_stops (stop_throws : LoopSource -> bool) (w : World) :
  tidy w -> timers (host (snd (dispose stop_throws w))) = ∅.
Proof.
  intros Ht. unfold tidy in Ht. open_world w.
  pose proof (cleared tm tl Ht) as Hc.
  destruct c as [[[] t r]|], ls as [s|], tl as [id|];
    try destruct (stop_throws s) eqn:Hs;
    exec; rewrite ?Hs; exact Hc.
Qed.

Lemma startTypingLoop_tidy (CONFIG : AudioConfig) (w : World) :
  timers (host w) = ∅ -> tidy (snd (startTypingLoop CONFIG w)).
Proof.
  intros He. open_world w. subst tm.
  destruct en, ini, lb as [b|], c as [ctx|], mg as [g|]; exec;
    first [ apply tidy_empty; reflexivity
          | apply (tidy_single _ nx 500); reflexivity ].
Qed.

Lemma fire_tidy (random : nat -> Q) (CONFIG : AudioConfig) (w : World)
    (id : positive) :
  tidy w -> tidy (snd (fire random CONFIG id w)).
Proof.
  intros Ht. unfold fire, bind at 1, get_host.
  destruct (timers (host w) !! id) as [delay|] eqn:Hid; [|exact Ht].
  unfold bind at 1, clearTimeout, set_host.
  apply scheduleNextKey_tidy. cbn [host timers with_timers].
  apply tidy_fired; [exact Ht | rewrite Hid; eauto].
Qed.

(** Every task keeps the world tidy, provided [startTypingLoop] is not
    called while a timer is pending. *)
Lemma perform_tidy (random : nat -> Q) (CONFIG : AudioConfig)
    (stop_throws : LoopSource -> bool) (t : Task) (w : World) :
  tidy w ->
  (t = call_startTypingLoop -> timers (host w) = ∅) ->
  tidy (snd (perform random CONFIG stop_throws t w)).
Proof.
  intros Ht Hstart. destruct t as [| | |b| |id]; cbn [perform].
  - apply startTypingLoop_tidy, Hstart. reflexivity.
  - apply tidy_empty, stopTypingLoop_clears, Ht.
  - pose proof (playKeyPress_frame random CONFIG w) as (Hthis & Htm & _).
    intros id His. rewrite Htm in His. rewrite Hthis. apply Ht, His.
  - destruct b.
    + pose proof (setEnabled_true_frame stop_throws CONFIG w) as (Htm & Hh).
      intros id His. rewrite Htm in His. rewrite Hh. apply Ht, His.
    + apply tidy_empty, setEnabled_false_stops, Ht.
  - apply tidy_empty, dispose_stops, Ht.
  - apply fire_tidy, Ht.
Qed.

(** X1: when the world starts with every pending timer held and
    [startTypingLoop] is never called while a timer is pending, then
    after any run of tasks every pending timer is still the held one and
    at most one timer is pending. *)
Lemma run_single_timer (random : nat -> Q) (CONFIG : AudioConfig)
    (stop_throws : LoopSource -> bool) (ts : list Task) :
  forall w,
    tidy w ->
    no_restart random CONFIG stop_throws ts w ->
    tidy (run random CONFIG stop_throws ts w) /\
    (pending (run random CONFIG stop_throws ts w) <= 1)%nat.
Proof.
  induction ts as [|t ts IH]; intros w Ht Hn; cbn [run].
  - split; [exact Ht | apply tidy_pending, Ht].
  - destruct Hn as [Hstart Hn].
    apply IH; [apply perform_tidy; assumption | exact Hn].
Qed.

(** On a tidy world, once [stopTypingLoop] has run no handle can fire:
    any further timer tasks leave the world as the stop left it. *)
Lemma stopped_loop_is_silent (random : nat -> Q) (CONFIG : AudioConfig)
    (stop_throws : LoopSource -> bool) (w : World) (ids : list positive) :
  tidy w ->
  let stopped := snd (stopTypingLoop stop_throws w) in
  run random CONFIG stop_throws (map timer_fires ids) stopped = stopped.
Proof.
  intros Ht stopped.
  assert (He : timers (host stopped) = ∅)
    by apply stopTypingLoop_clears, Ht.
  induction ids as [|id ids IH]; cbn [map run perform]; [reflexivity|].
  rewrite fire_not_pending by (rewrite He; apply lookup_empty).
  exact IH.
Qed.

(** [startTypingLoop()] directly followed by [stopTypingLoop()], from a
    world with no pending timer: no voice is built, no timer is left, and
    nothing can fire afterwards. *)
Lemma start_then_stop_is_silent (random : nat -> Q) (CONFIG : AudioConfig)
    (stop_throws : LoopSource -> bool) (w : World) (ids : list positive) :
  timers (host w) = ∅ ->
  let stopped :=
    run random CONFIG stop_throws
      [call_startTypingLoop; call_stopTypingLoop] w in
  graph (host stopped) = graph (host w) /\
  timers (host stopped) = ∅ /\
  run random CONFIG stop_throws (map timer_fires ids) stopped = stopped.
Proof.
  intros He stopped.
  assert (Hg : graph (host stopped) = graph (host w)).
  { subst stopped. clear He. open_world w.
    destruct en, ini, lb as [b|], c as [ctx|], mg as [g|], ls as [s|],
             tl as [id|];
      try destruct (stop_throws s) eqn:Hs;
      exec; rewrite ?Hs; try reflexivity;
      match goal with
      | |- context [stop_throws ?x] => destruct (stop_throws x); reflexivity
      end. }
  pose proof (startTypingLoop_tidy CONFIG w He) as Ht.
  split; [exact Hg|]. split.
  - apply (stopTypingLoop_clears stop_throws _ Ht).
  - apply (stopped_loop_is_silent random CONFIG stop_throws _ ids Ht).
Qed.

(** *** Where the loop goes wrong *)

(** C5, the defect: on the initialized engine without sound files, two
    [startTypingLoop()] calls in a row leave two timers pending, of which
    [typingLoopTimeout] holds only the second. *)
Theorem double_start_leaves_two_timers :
  let w :=
    run Demo.random Demo.CONFIG Demo.stop_throws
      [call_startTypingLoop; call_startTypingLoop] Demo.ready in
  pending w = 2%nat /\
  timers (host w) !! 1%positive = Some 500 /\
  timers (host w) !! 2%positive = Some 500 /\
  typingLoopTimeout (this w) = Some 2%positive.
Proof. repeat split; reflexivity. Qed.

(** C4, the defect: after the same two starts, [stopTypingLoop()] clears
    the second timer only; the first then fires, the choreographer builds
    its three voices after the stop, and the loop reschedules itself. *)
Theorem stop_after_double_start_still_fires :
  let stopped :=
    run Demo.random Demo.CONFIG Demo.stop_throws
      [call_startTypingLoop; call_startTypingLoop; call_stopTypingLoop]
      Demo.ready in
  let later :=
    run Demo.random Demo.CONFIG Demo.stop_throws
      [timer_fires 1%positive] stopped in
  typingLoopTimeout (this stopped) = None /\
  timers (host stopped) !! 1%positive = Some 500 /\
  length (modal_voices (graph (host stopped))) = 0%nat /\
  length (modal_voices (graph (host later))) = 3%nat /\
  pending later = 1%nat /\
  typingLoopTimeout (this later) = Some 3%positive.
Proof. repeat split; reflexivity. Qed.

(** * Further properties of the engine *)

(** ** Stopping, disabling and toggling *)

Lemma run_single_timer_witness :
  let ts := [call_startTypingLoop; timer_fires 1%positive;
             call_stopTypingLoop; call_startTypingLoop;
             call_setEnabled false; call_startTypingLoop] in
  tidy (run Demo.random Demo.CONFIG Demo.stop_throws ts Demo.ready) /\
  (pending (run Demo.random Demo.CONFIG Demo.stop_throws ts Demo.ready)
   <= 1)%nat.
Proof.
  apply (run_single_timer Demo.random Demo.CONFIG Demo.stop_throws).
  - apply tidy_empty. reflexivity.
  - cbn [no_restart].
    repeat split; intros H; first [discriminate H | reflexivity].
Defined.

Lemma fire_when_disabled_witness :
  let w :=
    run Demo.random Demo.CONFIG Demo.stop_throws
      [call_startTypingLoop; call_startTypingLoop; call_setEnabled false]
      Demo.ready in
  exists w',
    fire Demo.random Demo.CONFIG 1%positive w = (Normal tt, w') /\
    graph (host w') = graph (host w) /\
    draws (host w') = draws (host w) /\
    timers (host w') = delete 1%positive (timers (host w)) /\
    typingLoopTimeout (this w') = None.
Proof.
  apply (fire_when_disabled Demo.random Demo.CONFIG _ 1%positive 500).
  - reflexivity.
  - reflexivity.
Defined.

(** X2: on a world whose pending timers are all held in
    [typingLoopTimeout], [stopTypingLoop] completes normally, leaves no
    timer, no handle and no loop source, keeps every voice already built
    and the enabled flag, and no timer task can change the world
    afterwards. *)
Theorem stop_cancels_the_loop (random : nat -> Q) (CONFIG : AudioConfig)
    (stop_throws : LoopSource -> bool) (w : World) (ids : list positive) :
  tidy w ->
  let stopped := snd (stopTypingLoop stop_throws w) in
  fst (stopTypingLoop stop_throws w) = Normal tt /\
  timers (host stopped) = ∅ /\
  typingLoopTimeout (this stopped) = None /\
  typingLoopSource (this stopped) = None /\
  graph (host stopped) = graph (host w) /\
  enabled (this stopped) = enabled (this w) /\
  run random CONFIG stop_throws (map timer_fires ids) stopped = stopped.
Proof.
  intros Ht stopped.
  pose proof (stopTypingLoop_clears stop_throws w Ht) as [Htm Hh].
  pose proof (stopped_loop_is_silent random CONFIG stop_throws w ids Ht)
    as Hsilent.
  assert (Hrest : fst (stopTypingLoop stop_throws w) = Normal tt /\
                  typingLoopSource (this stopped) = None /\
                  graph (host stopped) = graph (host w) /\
                  enabled (this stopped) = enabled (this w)).
  { subst stopped. clear. open_world w.
    destruct ls as [s|], tl as [id|];
      try destruct (stop_throws s) eqn:Hs;
      exec; rewrite ?Hs; repeat split; reflexivity. }
  destruct Hrest as (H1 & H2 & H3 & H4).
  repeat split; assumption.
Qed.

Lemma stop_cancels_the_loop_witness :
  let w := snd (startTypingLoop Demo.CONFIG Demo.ready) in
  let stopped := snd (stopTypingLoop Demo.stop_throws w) in
  fst (stopTypingLoop Demo.stop_throws w) = Normal tt /\
  timers (host stopped) = ∅ /\
  typingLoopTimeout (this stopped) = None /\
  typingLoopSource (this stopped) = None /\
  graph (host stopped) = graph (host w) /\
  enabled (this stopped) = enabled (this w) /\
  run Demo.random Demo.CONFIG Demo.stop_throws
    (map timer_fires [1%positive; 2%positive]) stopped = stopped.
Proof.
  apply (stop_cancels_the_loop Demo.random Demo.CONFIG Demo.stop_throws
           (snd (startTypingLoop Demo.CONFIG Demo.ready))
           [1%positive; 2%positive]).
  apply (tidy_single _ 1%positive 500); reflexivity.
Defined.

(** X3: [setEnabled(false)] on an engine with master gain and context
    whose timers are all held (times and fade duration not negative)
    does not cut the master gain but appends a linear ramp to 0 ending
    [fadeOutDuration] ms after the current time, stops the loop (no
    timer, no handle, no loop source), keeps the voices already built,
    and only then writes the preference: when [localStorage.setItem]
    raises, the call raises that error with all of this done and nothing
    persisted; otherwise it completes normally and [false] is
    persisted. *)
Theorem setEnabled_false_fades_and_stops (CONFIG : AudioConfig)
    (stop_throws : LoopSource -> bool) (w : World) (g : GainNode)
    (ctx : AudioContext) :
  tidy w ->
  masterGain (this w) = Some g ->
  context (this w) = Some ctx ->
  0 <= currentTime ctx ->
  0 <= fadeOutDuration CONFIG ->
  let w' := snd (setEnabled CONFIG stop_throws false w) in
  fst (setEnabled CONFIG stop_throws false w) =
    match storage_error (host w) with
    | Some e => Throw e
    | None => Normal tt
    end /\
  storage (host w') =
    match storage_error (host w) with
    | Some _ => storage (host w)
    | None => Some false
    end /\
  enabled (this w') = false /\
  masterGain (this w') =
    Some {| gain_value := gain_value g;
            gain_events :=
              gain_events g ++
              [linearRampToValueAtTime 0
                 (currentTime ctx + fadeOutDuration CONFIG / 1000)] |} /\
  timers (host w') = ∅ /\
  typingLoopTimeout (this w') = None /\
  typingLoopSource (this w') = None /\
  graph (host w') = graph (host w).
Proof.
  intros Ht Hg Hc _ _ w'.
  pose proof (setEnabled_false_stops stop_throws CONFIG w Ht) as Htm.
  fold w' in Htm. revert Htm. subst w'. clear Ht. open_world w. subst mg c.
  destruct ls as [s|], tl as [id|], se as [e|];
    try destruct (stop_throws s) eqn:Hs;
    exec; rewrite ?Hs; intros Htm; repeat split; first [exact Htm | reflexivity].
Qed.

Lemma setEnabled_false_fades_and_stops_witness :
  let w := snd (startTypingLoop Demo.CONFIG Demo.ready) in
  let w' := snd (setEnabled Demo.CONFIG Demo.stop_throws false w) in
  fst (setEnabled Demo.CONFIG Demo.stop_throws false w) =
    match storage_error (host w) with
    | Some e => Throw e
    | None => Normal tt
    end /\
  storage (host w') =
    match storage_error (host w) with
    | Some _ => storage (host w)
    | None => Some false
    end /\
  enabled (this w') = false /\
  masterGain (this w') =
    Some {| gain_value := gain_value Demo.master;
            gain_events :=
              gain_events Demo.master ++
              [linearRampToValueAtTime 0
                 (currentTime Demo.new_context
                  + fadeOutDuration Demo.CONFIG / 1000)] |} /\
  timers (host w') = ∅ /\
  typingLoopTimeout (this w') = None /\
  typingLoopSource (this w') = None /\
  graph (host w') = graph (host w).
Proof.
  apply (setEnabled_false_fades_and_stops Demo.CONFIG Demo.stop_throws
           (snd (startTypingLoop Demo.CONFIG Demo.ready))
           Demo.master Demo.new_context).
  - apply (tidy_single _ 1%positive 500); reflexivity.
  - reflexivity.
  - reflexivity.
  - vm_compute. discriminate.
  - vm_compute. discriminate.
Defined.

(** X4: [setEnabled(true)] never restarts anything: in every state
    (times and fade duration not negative) it sets the flag and leaves
    the timers, the held handle, the loop source, the graph and the draw
    position alone; when master gain and context exist it appends a ramp
    to [masterVolume]; it then writes the preference, raising what
    [localStorage.setItem] raises, with the flag already set and nothing
    persisted, and otherwise completing normally with [true]
    persisted. *)
Theorem setEnabled_true_does_not_restart (CONFIG : AudioConfig)
    (stop_throws : LoopSource -> bool) (w : World) :
  (forall ctx, context (this w) = Some ctx -> 0 <= currentTime ctx) ->
  0 <= fadeOutDuration CONFIG ->
  let w' := snd (setEnabled CONFIG stop_throws true w) in
  fst (setEnabled CONFIG stop_throws true w) =
    match storage_error (host w) with
    | Some e => Throw e
    | None => Normal tt
    end /\
  storage (host w') =
    match storage_error (host w) with
    | Some _ => storage (host w)
    | None => Some true
    end /\
  enabled (this w') = true /\
  timers (host w') = timers (host w) /\
  typingLoopTimeout (this w') = typingLoopTimeout (this w) /\
  typingLoopSource (this w') = typingLoopSource (this w) /\
  graph (host w') = graph (host w) /\
  draws (host w') = draws (host w) /\
  (forall g ctx,
     masterGain (this w) = Some g -> context (this w) = Some ctx ->
     masterGain (this w') =
       Some {| gain_value := gain_value g;
               gain_events :=
                 gain_events g ++
                 [linearRampToValueAtTime (masterVolume CONFIG)
                    (currentTime ctx + fadeOutDuration CONFIG / 1000)] |}).
Proof.
  intros _ _ w'. subst w'. repeat split.
  1-8: open_world w; destruct mg as [g|], c as [ctx|], se as [e|];
       exec; reflexivity.
  intros g ctx Hg Hc. open_world w. subst mg c.
  destruct se as [e|]; exec; reflexivity.
Qed.

Lemma setEnabled_true_does_not_restart_witness :
  let w := snd (setEnabled Demo.CONFIG Demo.stop_throws false
                  (snd (startTypingLoop Demo.CONFIG Demo.ready))) in
  let w' := snd (setEnabled Demo.CONFIG Demo.stop_throws true w) in
  fst (setEnabled Demo.CONFIG Demo.stop_throws true w) =
    match storage_error (host w) with
    | Some e => Throw e
    | None => Normal tt
    end /\
  storage (host w') =
    match storage_error (host w) with
    | Some _ => storage (host w)
    | None => Some true
    end /\
  enabled (this w') = true /\
  timers (host w') = timers (host w) /\
  typingLoopTimeout (this w') = typingLoopTimeout (this w) /\
  typingLoopSource (this w') = typingLoopSource (this w) /\
  graph (host w') = graph (host w) /\
  draws (host w') = draws (host w) /\
  (forall g ctx,
     masterGain (this w) = Some g -> context (this w) = Some ctx ->
     masterGain (this w') =
       Some {| gain_value := gain_value g;
               gain_events :=
                 gain_events g ++
                 [linearRampToValueAtTime (masterVolume Demo.CONFIG)
                    (currentTime ctx
                     + fadeOutDuration Demo.CONFIG / 1000)] |}).
Proof.
  apply (setEnabled_true_does_not_restart Demo.CONFIG Demo.stop_throws
           (snd (setEnabled Demo.CONFIG Demo.stop_throws false
                   (snd (startTypingLoop Demo.CONFIG Demo.ready))))).
  - intros ctx Hc. injection Hc as <-. vm_compute. discriminate.
  - vm_compute. discriminate.
Defined.



(** X7: [toggle()] (times and fade duration not negative) always flips
    the enabled flag.  When [localStorage.setItem] accepts the write it
    completes normally, returns the new flag and persists it, and a
    second [toggle()] returns and restores the original flag; when
    [setItem] raises, [toggle()] raises that error instead of returning,
    with the flag flipped all the same and nothing persisted. *)
Theorem toggle_flips_and_persists (CONFIG : AudioConfig)
    (stop_throws : LoopSource -> bool) (w : World) :
  (forall ctx, context (this w) = Some ctx -> 0 <= currentTime ctx) ->
  0 <= fadeOutDuration CONFIG ->
  let once := toggle CONFIG stop_throws w in
  let twice := toggle CONFIG stop_throws (snd once) in
  enabled (this (snd once)) = negb (enabled (this w)) /\
  enabled (this (snd twice)) = enabled (this w) /\
  fst once =
    match storage_error (host w) with
    | Some e => Throw e
    | None => Normal (negb (enabled (this w)))
    end /\
  fst twice =
    match storage_error (host w) with
    | Some e => Throw e
    | None => Normal (enabled (this w))
    end /\
  storage (host (snd once)) =
    match storage_error (host w) with
    | Some _ => storage (host w)
    | None => Some (negb (enabled (this w)))
    end /\
  storage (host (snd twice)) =
    match storage_error (host w) with
    | Some _ => storage (host w)
    | None => Some (enabled (this w))
    end.
Proof.
  intros _ _. open_world w.
  destruct en, mg as [g|], c as [ctx|], ls as [s|], tl as [id|], se as [e|];
    try destruct (stop_throws s) eqn:Hs;
    exec; rewrite ?Hs; repeat split; reflexivity.
Qed.

Lemma toggle_flips_and_persists_witness :
  let w := snd (startTypingLoop Demo.CONFIG Demo.ready) in
  let once := toggle Demo.CONFIG Demo.stop_throws w in
  let twice := toggle Demo.CONFIG Demo.stop_throws (snd once) in
  enabled (this (snd once)) = negb (enabled (this w)) /\
  enabled (this (snd twice)) = enabled (this w) /\
  fst once =
    match storage_error (host w) with
    | Some e => Throw e
    | None => Normal (negb (enabled (this w)))
    end /\
  fst twice =
    match storage_error (host w) with
    | Some e => Throw e
    | None => Normal (enabled (this w))
    end /\
  storage (host (snd once)) =
    match storage_error (host w) with
    | Some _ => storage (host w)
    | None => Some (negb (enabled (this w)))
    end /\
  storage (host (snd twice)) =
    match storage_error (host w) with
    | Some _ => storage (host w)
    | None => Some (enabled (this w))
    end.
Proof.
  apply (toggle_flips_and_persists Demo.CONFIG Demo.stop_throws
           (snd (startTypingLoop Demo.CONFIG Demo.ready))).
  - intros ctx Hc. injection Hc as <-. vm_compute. discriminate.
  - vm_compute. discriminate.
Defined.

(** ** Initialization and the absence of raised errors *)

Lemma createBrownNoiseBuffer_frame (random : nat -> Q) (w : World) :
  this (snd (createBrownNoiseBuffer random w)) = this w /\
  storage_error (host (snd (createBrownNoiseBuffer random w)))
    = storage_error (host w).
Proof.
  assert (H : exists n, snd (createBrownNoiseBuffer random w) = advance n w).
  { unfold createBrownNoiseBuffer, the_context, bind at 1, get_this.
    unfold bind at 1.
    destruct (context (this w)) as [ctx|];
      [|exists 0%nat; rewrite advance_0; reflexivity].
    unfold ret at 1.
    destruct (Qfloor (sampleRate ctx * 0.05) <=? 0)%Z;
      [exists 0%nat; rewrite advance_0; reflexivity|].
    destruct (brown_loop_run random
                (Z.to_nat (Qfloor (sampleRate ctx * 0.05))) 0 w)
      as (data & Hrun & _).
    unfold bind. rewrite Hrun. eexists. reflexivity. }
  destruct H as [n ->]. split; reflexivity.
Qed.

Lemma wired_cases (a : AudioManager) :
  wired a ->
  (context a = None /\ initialized a = false) \/
  (exists ctx g, context a = Some ctx /\ masterGain a = Some g /\
     (initialized a = false \/ exists b, brownNoiseBuffer a = Some b)).
Proof.
  intros [Hm Hi]. destruct (context a) as [ctx|] eqn:Hc.
  - right. destruct Hm as [g Hg]; [eauto|]. exists ctx, g.
    split; [reflexivity|]. split; [exact Hg|].
    destruct (initialized a); [right|left; reflexivity].
    destruct Hi as [_ [b Hb]]; [reflexivity|]. eauto.
  - left. split; [reflexivity|].
    destruct (initialized a); [|reflexivity].
    destruct Hi as [[x Hx] _]; [reflexivity|]. discriminate.
Qed.

Lemma fire_pending (random : nat -> Q) (CONFIG : AudioConfig) (w : World)
    (id : positive) (delay : Q) :
  timers (host w) !! id = Some delay ->
  fire random CONFIG id w =
  scheduleNextKey random CONFIG
    {| this := this w;
       host := with_timers (delete id (timers (host w)))
                 (next_timer (host w)) (host w) |}.
Proof.
  intros Hid. unfold fire, bind at 1, get_host. rewrite Hid. reflexivity.
Qed.

Ltac wired_done :=
  unfold wired; fields; split;
  [ let H := fresh in
    intros H;
    first [ destruct H as [? H]; discriminate H | eexists; reflexivity ]
  | let Hi := fresh in
    intros Hi;
    first [ discriminate Hi | split; eexists; reflexivity ] ].

Ltac wired_step :=
  split; [reflexivity | split; [wired_done | reflexivity]].

(** On a wired object in a page whose storage accepts writes, every task
    completes normally and leaves the object wired and the storage
    accepting. *)
Lemma perform_wired (random : nat -> Q) (CONFIG : AudioConfig)
    (stop_throws : LoopSource -> bool) (t : Task) (w : World) :
  wired (this w) ->
  storage_error (host w) = None ->
  fst (perform random CONFIG stop_throws t w) = Normal tt /\
  wired (this (snd (perform random CONFIG stop_throws t w))) /\
  storage_error (host (snd (perform random CONFIG stop_throws t w))) = None.
Proof.
  intros Hw Hse. apply wired_cases in Hw.
  destruct Hw as [[Hc Hi] | (ctx & g & Hc & Hg & [Hi | [b Hb]])];
    open_world w; subst.
  - destruct t as [| | |e| |id]; cbn [perform].
    + destruct en; exec; wired_step.
    + destruct ls as [s|], tl as [id|];
        try destruct (stop_throws s) eqn:Hs; exec; rewrite ?Hs;
        wired_step.
    + destruct en; exec; wired_step.
    + destruct e, mg as [g|], ls as [s|], tl as [id|];
        try destruct (stop_throws s) eqn:Hs; exec; rewrite ?Hs;
        wired_step.
    + destruct ls as [s|], tl as [id|];
        try destruct (stop_throws s) eqn:Hs; exec; rewrite ?Hs;
        wired_step.
    + destruct (tm !! id) as [delay|] eqn:Hid;
        [ rewrite (fire_pending _ _ _ id delay) by exact Hid
        | rewrite fire_not_pending by exact Hid ];
        destruct en; exec; wired_step.
  - destruct t as [| | |e| |id]; cbn [perform].
    + destruct en; exec; wired_step.
    + destruct ls as [s|], tl as [id|];
        try destruct (stop_throws s) eqn:Hs; exec; rewrite ?Hs;
        wired_step.
    + destruct en; exec; wired_step.
    + destruct e, ls as [s|], tl as [id|];
        try destruct (stop_throws s) eqn:Hs; exec; rewrite ?Hs;
        wired_step.
    + destruct ctx as [[] t r], ls as [s|], tl as [id|];
        try destruct (stop_throws s) eqn:Hs; exec; rewrite ?Hs;
        wired_step.
    + destruct (tm !! id) as [delay|] eqn:Hid;
        [ rewrite (fire_pending _ _ _ id delay) by exact Hid
        | rewrite fire_not_pending by exact Hid ];
        destruct en, bn as [b|]; exec; wired_step.
  - destruct t as [| | |e| |id]; cbn [perform].
    + destruct en, ini, lb as [l|]; exec; wired_step.
    + destruct ls as [s|], tl as [id|];
        try destruct (stop_throws s) eqn:Hs; exec; rewrite ?Hs;
        wired_step.
    + destruct en, ini, kb as [k|]; exec;
        wired_step.
    + destruct e, ls as [s|], tl as [id|];
        try destruct (stop_throws s) eqn:Hs; exec; rewrite ?Hs;
        wired_step.
    + destruct ctx as [[] t r], ls as [s|], tl as [id|];
        try destruct (stop_throws s) eqn:Hs; exec; rewrite ?Hs;
        wired_step.
    + destruct (tm !! id) as [delay|] eqn:Hid;
        [ rewrite (fire_pending _ _ _ id delay) by exact Hid
        | rewrite fire_not_pending by exact Hid ];
        destruct en; exec; wired_step.
Qed.

Ltac step_noise random :=
  match goal with
  | |- context [createBrownNoiseBuffer random ?W] =>
      let Hf := fresh "Hf" in
      let buffer := fresh "buffer" in
      let e := fresh "e" in
      let w3 := fresh "w" in
      let Hs := fresh "Hs" in
      pose proof (createBrownNoiseBuffer_frame random W) as [Hf Hs];
      destruct (createBrownNoiseBuffer random W) as [[buffer|e] w3];
      cbn [snd] in Hf, Hs; open_world w3;
      injection Hf as -> -> -> -> -> -> -> -> ->; subst
  end.

(** [init()] completes normally, keeps the object wired and does not
    touch the page's storage. *)
Lemma init_wired (random : nat -> Q) (CONFIG : AudioConfig)
    (env : InitAnswers) (w : World) :
  wired (this w) ->
  fst (init random CONFIG env w) = Normal tt /\
  wired (this (snd (init random CONFIG env w))) /\
  storage_error (host (snd (init random CONFIG env w)))
    = storage_error (host w).
Proof.
  intros Hw. apply wired_cases in Hw.
  destruct env as [[[[] t r]|] resume lbuf pbuf];
    destruct Hw as [[Hc Hi] | (ctx & g & Hc & Hg & [Hi | [b Hb]])];
    open_world w; subst;
    try destruct ini; try destruct resume;
    unfold init, loadSounds;
    cbn [new_AudioContext resume_fulfils loopBuffer pressBuffer ctx_state];
    exec;
    cbn [new_AudioContext resume_fulfils loopBuffer pressBuffer ctx_state];
    try step_noise random;
    exec; wired_step.
Qed.

Lemma run_wired (random : nat -> Q) (CONFIG : AudioConfig)
    (stop_throws : LoopSource -> bool) (ts : list Task) :
  forall w,
    wired (this w) ->
    storage_error (host w) = None ->
    never_raises random CONFIG stop_throws ts w /\
    wired (this (run random CONFIG stop_throws ts w)) /\
    storage_error (host (run random CONFIG stop_throws ts w)) = None.
Proof.
  induction ts as [|t ts IH]; intros w Hw Hse; cbn [never_raises run].
  - split; [exact I | split; [exact Hw | exact Hse]].
  - destruct (perform_wired random CONFIG stop_throws t w Hw Hse)
      as (Hn & Hw' & Hse').
    destruct (IH _ Hw' Hse') as (Hrest & Hfinal & Hsf).
    split; [split; assumption | split; assumption].
Qed.

(** X8: sound is never fatal while the page's storage accepts writes.
    With times and fade durations not negative and [localStorage.setItem]
    not raising, whatever else the browser answers during [init()] (the
    context constructor raising, [resume()] rejecting, a zero-length
    buffer, sound files missing), [init()] on a new object completes
    normally, and so does every later task, in any order: calls of
    [startTypingLoop], [stopTypingLoop], [playKeyPress], [setEnabled],
    [dispose] and timer callbacks; a second [init()] in between changes
    nothing of this. *)
Theorem engine_never_raises (random : nat -> Q) (CONFIG : AudioConfig)
    (stop_throws : LoopSource -> bool) (env env' : InitAnswers) (h : Host)
    (ts ts' : list Task) :
  storage_error h = None ->
  0 <= fadeInDuration CONFIG ->
  0 <= fadeOutDuration CONFIG ->
  (forall ctx, new_AudioContext env = Some ctx -> 0 <= currentTime ctx) ->
  (forall ctx, new_AudioContext env' = Some ctx -> 0 <= currentTime ctx) ->
  let booted := init random CONFIG env {| this := constructor; host := h |} in
  let later := run random CONFIG stop_throws ts (snd booted) in
  fst booted = Normal tt /\
  never_raises random CONFIG stop_throws ts (snd booted) /\
  fst (init random CONFIG env' later) = Normal tt /\
  never_raises random CONFIG stop_throws ts'
    (snd (init random CONFIG env' later)).
Proof.
  intros Hse _ _ _ _ booted later.
  assert (H0 : wired (this {| this := constructor; host := h |})).
  { split; [intros [x Hx]; discriminate | intros Hi; discriminate]. }
  destruct (init_wired random CONFIG env _ H0) as (Hb & Hw & Hs).
  cbn [host] in Hs. rewrite Hse in Hs.
  destruct (run_wired random CONFIG stop_throws ts _ Hw Hs)
    as (Hn & Hw' & Hs').
  destruct (init_wired random CONFIG env' _ Hw') as (Hb' & Hw'' & Hs'').
  rewrite Hs' in Hs''.
  destruct (run_wired random CONFIG stop_throws ts' _ Hw'' Hs'')
    as (Hn' & _).
  repeat split; assumption.
Qed.

Lemma engine_never_raises_witness :
  let ts := [call_startTypingLoop; timer_fires 1%positive;
             call_playKeyPress; call_setEnabled false;
             call_setEnabled true; call_startTypingLoop;
             call_stopTypingLoop; call_dispose; call_playKeyPress] in
  let booted := init Demo.random Demo.CONFIG Demo.synthetic Demo.created in
  let later :=
    run Demo.random Demo.CONFIG Demo.stop_throws ts (snd booted) in
  fst booted = Normal tt /\
  never_raises Demo.random Demo.CONFIG Demo.stop_throws ts (snd booted) /\
  fst (init Demo.random Demo.CONFIG Demo.sampled later) = Normal tt /\
  never_raises Demo.random Demo.CONFIG Demo.stop_throws ts
    (snd (init Demo.random Demo.CONFIG Demo.sampled later)).
Proof.
  apply (engine_never_raises Demo.random Demo.CONFIG Demo.stop_throws
           Demo.synthetic Demo.sampled fresh_host).
  - reflexivity.
  - vm_compute. discriminate.
  - vm_compute. discriminate.
  - intros ctx Hc. injection Hc as <-. vm_compute. discriminate.
  - intros ctx Hc. injection Hc as <-. vm_compute. discriminate.
Defined.

Ltac exec_init :=
  unfold init, loadSounds;
  cbn [new_AudioContext resume_fulfils loopBuffer pressBuffer ctx_state];
  exec;
  cbn [new_AudioContext resume_fulfils loopBuffer pressBuffer ctx_state
       currentTime sampleRate].

(** X9: when the context can be made (and resumed if it starts
    suspended) and the noise buffer has positive length, [init()] on an
    object not yet initialized completes normally and leaves it
    initialized with a running context, a master gain at [masterVolume]
    with no automation, a noise buffer of [floor(sampleRate * 0.05)]
    samples made from that many draws, and each of the two sound buffers
    exactly as its own [loadSound] answered (one may be present and the
    other absent); the enabled flag, the timers and the graph are as
    before. *)
Theorem init_sets_up (random : nat -> Q) (CONFIG : AudioConfig)
    (env : InitAnswers) (w : World) (ctx : AudioContext) :
  initialized (this w) = false ->
  new_AudioContext env = Some ctx ->
  (ctx_state ctx = Suspended -> resume_fulfils env = true) ->
  (0 < Qfloor (sampleRate ctx * 0.05))%Z ->
  exists buffer w',
    init random CONFIG env w = (Normal tt, w') /\
    initialized (this w') = true /\
    enabled (this w') = enabled (this w) /\
    context (this w') =
      Some {| ctx_state :=
                match ctx_state ctx with Suspended => Running | s => s end;
              currentTime := currentTime ctx;
              sampleRate := sampleRate ctx |} /\
    masterGain (this w') =
      Some {| gain_value := masterVolume CONFIG; gain_events := [] |} /\
    brownNoiseBuffer (this w') = Some buffer /\
    Z.of_nat (length (channelData buffer)) = Qfloor (sampleRate ctx * 0.05) /\
    typingLoopBuffer (this w') = loopBuffer env /\
    keyPressBuffer (this w') = pressBuffer env /\
    Z.of_nat (draws (host w')) =
      (Z.of_nat (draws (host w)) + Qfloor (sampleRate ctx * 0.05))%Z /\
    timers (host w') = timers (host w) /\
    graph (host w') = graph (host w).
Proof.
  intros Hi Hnew Hres Hlen.
  destruct env as [nc resume lbuf pbuf]. cbn [new_AudioContext] in Hnew.
  cbn [resume_fulfils] in Hres. subst nc.
  open_world w. subst ini.
  assert (Hrun : forall st',
    st' = match ctx_state ctx with Suspended => Running | s => s end ->
    exists data,
      createBrownNoiseBuffer random
        {| this := {| context := Some {| ctx_state := st';
                                         currentTime := currentTime ctx;
                                         sampleRate := sampleRate ctx |};
                      masterGain := Some {| gain_value := masterVolume CONFIG;
                                            gain_events := [] |};
                      typingLoopSource := ls; typingLoopBuffer := lb;
                      keyPressBuffer := kb; brownNoiseBuffer := bn;
                      enabled := en; initialized := false;
                      typingLoopTimeout := tl |};
           host := {| draws := d; timers := tm; next_timer := nx;
                      graph := gr; storage := st; rejections := rj;
                      storage_error := se |} |}
      = (Normal {| channelData := data; buffer_rate := sampleRate ctx |},
         {| this := {| context := Some {| ctx_state := st';
                                          currentTime := currentTime ctx;
                                          sampleRate := sampleRate ctx |};
                       masterGain := Some {| gain_value := masterVolume CONFIG;
                                             gain_events := [] |};
                       typingLoopSource := ls; typingLoopBuffer := lb;
                       keyPressBuffer := kb; brownNoiseBuffer := bn;
                       enabled := en; initialized := false;
                       typingLoopTimeout := tl |};
            host := {| draws :=
                         d + Z.to_nat (Qfloor (sampleRate ctx * 0.05));
                       timers := tm; next_timer := nx;
                       graph := gr; storage := st; rejections := rj;
                      storage_error := se |} |}) /\
      length data = Z.to_nat (Qfloor (sampleRate ctx * 0.05))).
  { intros st' _.
    match goal with
    | |- context [createBrownNoiseBuffer random ?W] =>
        destruct (createBrownNoiseBuffer_run random W
                    {| ctx_state := st'; currentTime := currentTime ctx;
                       sampleRate := sampleRate ctx |} eq_refl Hlen)
          as (data & Hr & Hl & _)
    end.
    exists data. split; [exact Hr | exact Hl]. }
  destruct (Hrun _ eq_refl) as (data & Hr & Hl). clear Hrun.
  exists {| channelData := data; buffer_rate := sampleRate ctx |}.
  destruct ctx as [[] t r]; cbn [ctx_state currentTime sampleRate] in *;
    try (rewrite Hres by reflexivity);
    eexists; (split; [exec_init; rewrite Hr; exec; reflexivity|]);
    fields; cbn [channelData]; rewrite Hl;
    repeat split; try reflexivity; lia.
Qed.

Lemma init_sets_up_witness :
  exists buffer w',
    init Demo.random Demo.CONFIG Demo.sampled Demo.created = (Normal tt, w') /\
    initialized (this w') = true /\
    enabled (this w') = enabled (this Demo.created) /\
    context (this w') =
      Some {| ctx_state :=
                match ctx_state Demo.new_context with
                | Suspended => Running
                | s => s
                end;
              currentTime := currentTime Demo.new_context;
              sampleRate := sampleRate Demo.new_context |} /\
    masterGain (this w') =
      Some {| gain_value := masterVolume Demo.CONFIG; gain_events := [] |} /\
    brownNoiseBuffer (this w') = Some buffer /\
    Z.of_nat (length (channelData buffer)) =
      Qfloor (sampleRate Demo.new_context * 0.05) /\
    typingLoopBuffer (this w') = loopBuffer Demo.sampled /\
    keyPressBuffer (this w') = pressBuffer Demo.sampled /\
    Z.of_nat (draws (host w')) =
      (Z.of_nat (draws (host Demo.created))
       + Qfloor (sampleRate Demo.new_context * 0.05))%Z /\
    timers (host w') = timers (host Demo.created) /\
    graph (host w') = graph (host Demo.created).
Proof.
  apply (init_sets_up Demo.random Demo.CONFIG Demo.sampled Demo.created
           Demo.new_context).
  - reflexivity.
  - reflexivity.
  - intros H. discriminate H.
  - reflexivity.
Defined.

Lemma init_keeps_disabled (random : nat -> Q) (CONFIG : AudioConfig)
    (env : InitAnswers) (w : World) :
  enabled (this w) = false ->
  enabled (this (snd (init random CONFIG env w))) = false.
Proof.
  intros He. destruct env as [[[[] t r]|] resume lbuf pbuf];
    open_world w; subst;
    destruct ini; try destruct resume;
    exec_init; try step_noise random; exec; reflexivity.
Qed.

(** X10: a failed [init()] (the context constructor raises, or
    [resume()] of a suspended context rejects) completes normally,
    leaves the object uninitialized and disabled, and nothing but
    [setEnabled(true)] undoes that: after any later [init()], even a
    successful one, the engine is still disabled, and [playKeyPress] and
    [startTypingLoop] do nothing. *)
Theorem failed_init_stays_disabled (random : nat -> Q)
    (CONFIG : AudioConfig) (env retry : InitAnswers) (w : World) :
  initialized (this w) = false ->
  new_AudioContext env = None \/
  (exists ctx, new_AudioContext env = Some ctx /\
               ctx_state ctx = Suspended /\ resume_fulfils env = false) ->
  let failed := init random CONFIG env w in
  let second := snd (init random CONFIG retry (snd failed)) in
  fst failed = Normal tt /\
  initialized (this (snd failed)) = false /\
  enabled (this (snd failed)) = false /\
  host (snd failed) = host w /\
  enabled (this second) = false /\
  playKeyPress random CONFIG second = (Normal tt, second) /\
  startTypingLoop CONFIG second = (Normal tt, second).
Proof.
  intros Hi Hfail failed second.
  assert (H1 : fst failed = Normal tt /\
               initialized (this (snd failed)) = false /\
               enabled (this (snd failed)) = false /\
               host (snd failed) = host w).
  { subst failed. clear second.
    destruct env as [nc resume lbuf pbuf].
    cbn [new_AudioContext resume_fulfils] in Hfail.
    destruct Hfail as [-> | ([[] t r] & -> & Hs & ->)];
      try discriminate Hs;
      open_world w; subst; exec_init; repeat split; reflexivity. }
  destruct H1 as (Hn & Hini & Hen & Hh).
  assert (H2 : enabled (this second) = false)
    by (apply init_keeps_disabled; exact Hen).
  repeat split; try assumption.
  - clearbody second. clear - H2. open_world second. subst. reflexivity.
  - clearbody second. clear - H2. open_world second. subst. reflexivity.
Qed.

Lemma failed_init_stays_disabled_witness :
  let env := {| new_AudioContext := None; resume_fulfils := true;
                loopBuffer := None; pressBuffer := None |} in
  let failed := init Demo.random Demo.CONFIG env Demo.created in
  let second := snd (init Demo.random Demo.CONFIG Demo.sampled (snd failed)) in
  fst failed = Normal tt /\
  initialized (this (snd failed)) = false /\
  enabled (this (snd failed)) = false /\
  host (snd failed) = host Demo.created /\
  enabled (this second) = false /\
  playKeyPress Demo.random Demo.CONFIG second = (Normal tt, second) /\
  startTypingLoop Demo.CONFIG second = (Normal tt, second).
Proof.
  apply (failed_init_stays_disabled Demo.random Demo.CONFIG
           {| new_AudioContext := None; resume_fulfils := true;
              loopBuffer := None; pressBuffer := None |}
           Demo.sampled Demo.created).
  - reflexivity.
  - left. reflexivity.
Defined.

(** ** Building a voice from any config *)

Lemma forEach_mode_run (random : nat -> Q) (ms : list Mode) :
  forall w,
  exists fs,
    forEach_mode random ms w = (Normal fs, advance (length ms) w) /\
    length fs = length ms /\
    forall i m, ms !! i = Some m ->
      fs !! i =
      Some {| filter_frequency := freq m; filter_Q := mode_Q m;
              modeGain_value :=
                gain m *
                (0.85 + random (draws (host w) + i)%nat * (1.15 - 0.85)) |}.
Proof.
  induction ms as [|m ms IH]; intros w.
  - exists []. rewrite advance_0.
    split; [reflexivity | split; [reflexivity | intros i m' H; discriminate H]].
  - destruct (IH (advance 1 w)) as (fs & Hrun & Hlen & Hnth).
    eexists. split; [|split].
    + cbn [forEach_mode]. unfold bind at 1, rand, bind at 1.
      rewrite Math_random_run. unfold ret at 1. unfold bind at 1.
      rewrite Hrun. unfold ret. rewrite advance_S. reflexivity.
    + cbn [length]. rewrite Hlen. reflexivity.
    + intros [|i] m' Hm.
      * change (Some m = Some m') in Hm. injection Hm as <-.
        rewrite Nat.add_0_r. reflexivity.
      * change (ms !! i = Some m') in Hm.
        transitivity (fs !! i); [reflexivity|].
        rewrite (Hnth i m' Hm). unfold advance. cbn [host draws with_draws].
        do 6 f_equal. lia.
Qed.

(** X12: for any start time and duration that are not negative and
    any list of modes, on an object with a context and a master gain,
    [triggerModalImpact] completes normally and adds exactly one voice:
    on [this.brownNoiseBuffer], starting at the given time and stopping
    [duration + 0.15] later, with the envelope 0.001, up to 1 after
    0.1 ms, down to 0.001 at the end of the duration, its gain
    [masterGain * keyPressVolume], and one filter per mode in the
    config's order whose frequency and Q are the mode's and whose gain is
    the mode's times [0.85 + 0.3 r] for the draw [r] of its position; it
    consumes as many draws as there are modes and changes neither the
    object's fields nor the timers. *)
Theorem triggerModalImpact_builds_one_voice (random : nat -> Q)
    (CONFIG : AudioConfig) (startTime : Q) (config : ImpactConfig)
    (w : World) (ctx : AudioContext) (g : GainNode) :
  0 <= startTime ->
  0 <= duration config ->
  context (this w) = Some ctx ->
  masterGain (this w) = Some g ->
  exists voice w',
    triggerModalImpact random CONFIG startTime config w = (Normal tt, w') /\
    this w' = this w /\
    graph (host w') = graph (host w) ++ [ModalNode voice] /\
    draws (host w') = (draws (host w) + length (modes config))%nat /\
    timers (host w') = timers (host w) /\
    voice_config voice = config /\
    exciter_buffer voice = brownNoiseBuffer (this w) /\
    exciterGain_events voice =
      [setValueAtTime 0.001 startTime;
       linearRampToValueAtTime 1.0 (startTime + 0.0001);
       exponentialRampToValueAtTime 0.001 (startTime + duration config)] /\
    impactGain_value voice = cfg_masterGain config * keyPressVolume CONFIG /\
    exciter_start voice = startTime /\
    exciter_stop voice = startTime + duration config + 0.15 /\
    length (voice_filters voice) = length (modes config) /\
    forall i m, modes config !! i = Some m ->
      voice_filters voice !! i =
      Some {| filter_frequency := freq m; filter_Q := mode_Q m;
              modeGain_value :=
                gain m *
                (0.85 + random (draws (host w) + i)%nat * (1.15 - 0.85)) |}.
Proof.
  intros _ _ Hc Hg.
  destruct (forEach_mode_run random (modes config) w)
    as (fs & Hrun & Hlen & Hnth).
  open_world w. subst c mg.
  do 2 eexists. split.
  - unfold triggerModalImpact, the_context, connect_masterGain.
    unfold bind at 1, bind at 1, get_this. fields. unfold ret at 1.
    unfold bind at 1, get_this. unfold bind at 1, bind at 1, get_this.
    fields. unfold ret at 1. unfold bind at 1. rewrite Hrun.
    unfold advance. exec. reflexivity.
  - fields.
    cbn [voice_config exciter_buffer exciterGain_events impactGain_value
         exciter_start exciter_stop voice_filters].
    repeat split; try reflexivity; assumption.
Qed.

Lemma triggerModalImpact_builds_one_voice_witness :
  let config :=
    {| duration := 0.01;
       modes := [ {| freq := 440; mode_Q := 12; gain := 0.6 |};
                  {| freq := 990; mode_Q := 4; gain := 0.2 |} ];
       cfg_masterGain := 0.5 |} in
  exists voice w',
    triggerModalImpact Demo.random Demo.CONFIG 7 config Demo.ready
      = (Normal tt, w') /\
    this w' = this Demo.ready /\
    graph (host w') = graph (host Demo.ready) ++ [ModalNode voice] /\
    draws (host w') = (draws (host Demo.ready) + length (modes config))%nat /\
    timers (host w') = timers (host Demo.ready) /\
    voice_config voice = config /\
    exciter_buffer voice = brownNoiseBuffer (this Demo.ready) /\
    exciterGain_events voice =
      [setValueAtTime 0.001 7;
       linearRampToValueAtTime 1.0 (7 + 0.0001);
       exponentialRampToValueAtTime 0.001 (7 + duration config)] /\
    impactGain_value voice
      = cfg_masterGain config * keyPressVolume Demo.CONFIG /\
    exciter_start voice = 7 /\
    exciter_stop voice = 7 + duration config + 0.15 /\
    length (voice_filters voice) = length (modes config) /\
    forall i m, modes config !! i = Some m ->
      voice_filters voice !! i =
      Some {| filter_frequency := freq m; filter_Q := mode_Q m;
              modeGain_value :=
                gain m *
                (0.85 + Demo.random (draws (host Demo.ready) + i)%nat
                        * (1.15 - 0.85)) |}.
Proof.
  apply (triggerModalImpact_builds_one_voice Demo.random Demo.CONFIG 7
           {| duration := 0.01;
              modes := [ {| freq := 440; mode_Q := 12; gain := 0.6 |};
                         {| freq := 990; mode_Q := 4; gain := 0.2 |} ];
              cfg_masterGain := 0.5 |}
           Demo.ready Demo.new_context Demo.master).
  - vm_compute. discriminate.
  - vm_compute. discriminate.
  - reflexivity.
  - reflexivity.
Defined.

(** ** The three canonical voices *)

(** X13: each of the three voices of a keypress has its envelope events
    in chronological order: the value is set at the start, the attack
    ramp ends 0.1 ms later and strictly before the decay ramp ends
    (every duration exceeds 0.1 ms), the decay ends strictly before the
    exciter stops, and the decay target 0.001 is positive, as an
    exponential ramp needs. *)
Theorem keypress_envelopes_in_order (random : nat -> Q)
    (CONFIG : AudioConfig) (w : World) (ctx : AudioContext)
    (noise : AudioBuffer) (g : GainNode) :
  context (this w) = Some ctx ->
  brownNoiseBuffer (this w) = Some noise ->
  masterGain (this w) = Some g ->
  exists v1 v2 v3 w',
    playModalKeypress random CONFIG w = (Normal tt, w') /\
    graph (host w') =
      graph (host w) ++ [ModalNode v1; ModalNode v2; ModalNode v3] /\
    Forall envelope_in_order [v1; v2; v3] /\
    Forall (fun v => exciter_buffer v = Some noise) [v1; v2; v3].
Proof.
  intros Hc Hb Hg. open_world w. subst c bn mg.
  do 4 eexists. split; [exec; reflexivity|]. fields.
  split; [rewrite <- !app_assoc; reflexivity|]. split.
  - repeat (apply List.Forall_cons;
            [unfold envelope_in_order;
             cbn [exciterGain_events exciter_start exciter_stop];
             do 3 eexists; split; [reflexivity|];
             split; [reflexivity|]; repeat split; lra|]).
    apply List.Forall_nil.
  - repeat (apply List.Forall_cons; [reflexivity|]). apply List.Forall_nil.
Qed.

Lemma keypress_envelopes_in_order_witness :
  exists v1 v2 v3 w',
    playModalKeypress Demo.random Demo.CONFIG Demo.ready = (Normal tt, w') /\
    graph (host w') =
      graph (host Demo.ready) ++ [ModalNode v1; ModalNode v2; ModalNode v3] /\
    Forall envelope_in_order [v1; v2; v3] /\
    Forall (fun v => exciter_buffer v = Some Demo.noise) [v1; v2; v3].
Proof.
  apply (keypress_envelopes_in_order Demo.random Demo.CONFIG Demo.ready
           Demo.new_context Demo.noise Demo.master).
  - reflexivity.
  - reflexivity.
  - reflexivity.
Defined.

(** X14: the variation is centred on the literal tables.  Whatever the
    draws are, the Q of every filter of the three voices is the literal
    Q; and when every draw is 1/2, the filters carry exactly the literal
    frequencies and gains (all thirteen modes, the impact voice's 520 Hz
    mode at gain 1.0 among them). *)
Theorem keypress_at_midpoint_is_literal (random : nat -> Q)
    (CONFIG : AudioConfig) (w : World) (ctx : AudioContext)
    (noise : AudioBuffer) (g : GainNode) :
  context (this w) = Some ctx ->
  brownNoiseBuffer (this w) = Some noise ->
  masterGain (this w) = Some g ->
  exists click impact upstroke w',
    playModalKeypress random CONFIG w = (Normal tt, w') /\
    graph (host w') =
      graph (host w) ++
      [ModalNode click; ModalNode impact; ModalNode upstroke] /\
    map filter_Q (voice_filters click) = [8; 5; 3] /\
    map filter_Q (voice_filters impact) = [28; 22; 18; 14; 10; 6; 4] /\
    map filter_Q (voice_filters upstroke) = [7; 5; 15] /\
    ((forall n, random n == 0.5) ->
     Forall2 mode_exact (voice_filters click) spec_click_modes /\
     Forall2 mode_exact (voice_filters impact) spec_impact_modes /\
     Forall2 mode_exact (voice_filters upstroke) spec_upstroke_modes).
Proof.
  intros Hc Hb Hg. open_world w. subst c bn mg.
  do 4 eexists. split; [exec; reflexivity|]. fields.
  split; [rewrite <- !app_assoc; reflexivity|].
  cbn [voice_filters].
  do 3 (split; [reflexivity|]).
  intros Hr.
  unfold spec_click_modes, spec_impact_modes, spec_upstroke_modes.
  repeat split;
    repeat (apply List.Forall2_cons;
            [unfold mode_exact;
             cbn [filter_frequency modeGain_value];
             split;
             match goal with
             | |- context [random ?n] =>
                 pose proof (Hr n);
                 repeat match goal with
                 | |- context [random ?k] =>
                     lazymatch goal with
                     | _ : random k == 0.5 |- _ => fail
                     | _ => pose proof (Hr k)
                     end
                 end
             end; lra|]);
    apply List.Forall2_nil.
Qed.

Lemma keypress_at_midpoint_is_literal_witness :
  exists click impact upstroke w',
    playModalKeypress Midpoint.random Demo.CONFIG Demo.ready
      = (Normal tt, w') /\
    graph (host w') =
      graph (host Demo.ready) ++
      [ModalNode click; ModalNode impact; ModalNode upstroke] /\
    map filter_Q (voice_filters click) = [8; 5; 3] /\
    map filter_Q (voice_filters impact) = [28; 22; 18; 14; 10; 6; 4] /\
    map filter_Q (voice_filters upstroke) = [7; 5; 15] /\
    Forall2 mode_exact (voice_filters click) spec_click_modes /\
    Forall2 mode_exact (voice_filters impact) spec_impact_modes /\
    Forall2 mode_exact (voice_filters upstroke) spec_upstroke_modes.
Proof.
  destruct (keypress_at_midpoint_is_literal Midpoint.random Demo.CONFIG
              Demo.ready Demo.new_context Demo.noise Demo.master
              eq_refl eq_refl eq_refl)
    as (click & impact & upstroke & w' & Hrun & Hgraph & Hq1 & Hq2 & Hq3
        & Hmid).
  exists click, impact, upstroke, w'.
  repeat (split; [assumption|]).
  apply Hmid. intros n. reflexivity.
Defined.

(** ** More on the noise and on [rand] *)

(** X15: the noise is smooth.  For draws in [0, 1), the first sample of
    the generated buffer lies within 0.07 of zero and any two
    consecutive samples differ by at most 0.14, a small fraction of the
    range of 3.5 either side that the samples may reach. *)
Theorem createBrownNoiseBuffer_smooth (random : nat -> Q) (w : World)
    (ctx : AudioContext) :
  (forall n, 0 <= random n < 1) ->
  context (this w) = Some ctx ->
  (0 < Qfloor (sampleRate ctx * 0.05))%Z ->
  exists buffer w',
    createBrownNoiseBuffer random w = (Normal buffer, w') /\
    -0.07 <= nth 0 (channelData buffer) 0 <= 0.07 /\
    forall i, (S i < length (channelData buffer))%nat ->
      -0.14 <= nth (S i) (channelData buffer) 0
               - nth i (channelData buffer) 0 <= 0.14.
Proof.
  intros Hr Hctx Hlen.
  destruct (createBrownNoiseBuffer_run random w ctx Hctx Hlen)
    as (data & Hrun & Hlength & Hnth).
  assert (Hb : forall n,
             -1 <= integrator (white random (draws (host w))) 0 n <= 1).
  { intros n. apply integrator_bounded. intros j.
    pose proof (white_range random (draws (host w)) Hr j). lra. }
  eexists. eexists. split; [exact Hrun|]. cbn [channelData]. split.
  - rewrite Hnth by (rewrite Hlength; lia). cbn [integrator].
    pose proof (white_range random (draws (host w)) Hr 0%nat).
    unfold Qdiv. change (/ 1.02) with (100 # 102). lra.
  - intros i Hi. rewrite !Hnth by lia.
    change (integrator (white random (draws (host w))) 0 (S (S i)))
      with ((integrator (white random (draws (host w))) 0 (S i)
             + 0.02 * white random (draws (host w)) (S i)) / 1.02).
    pose proof (Hb (S i)).
    pose proof (white_range random (draws (host w)) Hr (S i)).
    unfold Qdiv. change (/ 1.02) with (100 # 102). lra.
Qed.

Lemma createBrownNoiseBuffer_smooth_witness :
  exists buffer w',
    createBrownNoiseBuffer Demo.random Demo.in_init = (Normal buffer, w') /\
    -0.07 <= nth 0 (channelData buffer) 0 <= 0.07 /\
    forall i, (S i < length (channelData buffer))%nat ->
      -0.14 <= nth (S i) (channelData buffer) 0
               - nth i (channelData buffer) 0 <= 0.14.
Proof.
  apply (createBrownNoiseBuffer_smooth Demo.random Demo.in_init
           Demo.new_context).
  - exact Demo_random_range.
  - reflexivity.
  - vm_compute. reflexivity.
Defined.

(** X16: [rand(min, max)] with [min <= max] and a draw in [0, 1)
    consumes exactly that one draw, changes nothing else and returns
    [min + r * (max - min)], a value from [min] to [max]. *)
Theorem rand_in_range (random : nat -> Q) (min max : Q) (w : World) :
  min <= max ->
  0 <= random (draws (host w)) < 1 ->
  exists x,
    rand random min max w = (Normal x, advance 1 w) /\
    x = min + random (draws (host w)) * (max - min) /\
    min <= x <= max.
Proof.
  intros Hm Hr. eexists. split.
  - unfold rand, bind. rewrite Math_random_run. reflexivity.
  - split; [reflexivity|].
    set (r := random (draws (host w))) in *.
    assert (H0 : 0 <= r * (max - min))
      by (apply Qmult_le_0_compat; lra).
    assert (H1 : 0 <= (1 - r) * (max - min))
      by (apply Qmult_le_0_compat; lra).
    lra.
Qed.

Lemma rand_in_range_witness :
  exists x,
    rand Demo.random 0.97 1.03 Demo.ready = (Normal x, advance 1 Demo.ready) /\
    x = 0.97 + Demo.random (draws (host Demo.ready)) * (1.03 - 0.97) /\
    0.97 <= x <= 1.03.
Proof.
  apply (rand_in_range Demo.random 0.97 1.03 Demo.ready).
  - vm_compute. discriminate.
  - apply Demo_random_range.
Defined.

(** ** Starting the loop, and timers nobody holds *)



Ltac fresh_solve Hf :=
  let j := fresh "j" in
  let Hj := fresh "Hj" in
  intros j Hj; fields;
  rewrite ?lookup_insert, ?lookup_delete in Hj;
  repeat case_decide; subst;
  try (destruct Hj as [? Hj]; discriminate Hj);
  try (apply Hf in Hj); lia.

(** Handles stay below the next handle through every task. *)
Lemma perform_fresh (random : nat -> Q) (CONFIG : AudioConfig)
    (stop_throws : LoopSource -> bool) (t : Task) (w : World) :
  fresh_handles w ->
  fresh_handles (snd (perform random CONFIG stop_throws t w)).
Proof.
  intros Hf. unfold fresh_handles in *.
  destruct t as [| | |e| |id]; cbn [perform].
  - open_world w. destruct en, ini, lb as [l|], c as [ctx|], mg as [g|];
      exec; fresh_solve Hf.
  - open_world w. destruct ls as [s|], tl as [id|];
      try destruct (stop_throws s) eqn:Hs; exec; rewrite ?Hs;
      fresh_solve Hf.
  - pose proof (playKeyPress_frame random CONFIG w) as (_ & Htm & Hnx).
    intros j Hj. rewrite Htm in Hj. rewrite Hnx. apply Hf, Hj.
  - open_world w.
    destruct e, mg as [g|], c as [ctx|], ls as [s|], tl as [id|],
             se as [e0|];
      try destruct (stop_throws s) eqn:Hs; exec; rewrite ?Hs;
      fresh_solve Hf.
  - open_world w.
    destruct c as [[[] t r]|], ls as [s|], tl as [id|];
      try destruct (stop_throws s) eqn:Hs;
      exec; rewrite ?Hs; cbn [ctx_state]; exec;
      fresh_solve Hf.
  - destruct (timers (host w) !! id) as [delay|] eqn:Hid;
      [ rewrite (fire_pending _ _ _ id delay) by exact Hid
      | rewrite fire_not_pending by exact Hid; exact Hf ].
    clear Hid. open_world w.
    destruct en, c as [ctx|], bn as [b|], mg as [g|]; exec;
      fresh_solve Hf.
Qed.

Lemma run_fresh (random : nat -> Q) (CONFIG : AudioConfig)
    (stop_throws : LoopSource -> bool) (ts : list Task) :
  forall w, fresh_handles w ->
            fresh_handles (run random CONFIG stop_throws ts w).
Proof.
  induction ts as [|t ts IH]; intros w Hf; cbn [run]; [exact Hf|].
  apply IH, perform_fresh, Hf.
Qed.

Ltac below_next Hf Hid :=
  let Hlt := fresh "Hlt" in
  match type of Hid with
  | ?l = _ =>
      assert (Hlt : is_Some l) by (rewrite Hid; eauto);
      apply Hf in Hlt; lia
  end.

Ltac orphan_solve Hf Hid Hh :=
  fields; split;
  [ rewrite ?lookup_insert, ?lookup_delete;
    repeat case_decide; subst;
    first [ exact Hid
          | exfalso; apply Hh; reflexivity
          | exfalso; below_next Hf Hid ]
  | let E := fresh "E" in
    intros E;
    first [ discriminate E
          | apply Hh; exact E
          | injection E as E; subst; below_next Hf Hid ] ].

Lemma perform_orphan (random : nat -> Q) (CONFIG : AudioConfig)
    (stop_throws : LoopSource -> bool) (t : Task) (w : World)
    (id : positive) (delay : Q) :
  fresh_handles w ->
  timers (host w) !! id = Some delay ->
  typingLoopTimeout (this w) <> Some id ->
  t <> timer_fires id ->
  timers (host (snd (perform random CONFIG stop_throws t w))) !! id
    = Some delay /\
  typingLoopTimeout (this (snd (perform random CONFIG stop_throws t w)))
    <> Some id.
Proof.
  intros Hf Hid Hh Ht. unfold fresh_handles in Hf.
  destruct t as [| | |e| |id']; cbn [perform].
  - open_world w. destruct en, ini, lb as [l|], c as [ctx|], mg as [g|];
      exec; orphan_solve Hf Hid Hh.
  - open_world w. destruct ls as [s|], tl as [h|];
      try destruct (stop_throws s) eqn:Hs; exec; rewrite ?Hs;
      orphan_solve Hf Hid Hh.
  - pose proof (playKeyPress_frame random CONFIG w) as (Hthis & Htm & _).
    rewrite Htm, Hthis. split; assumption.
  - open_world w.
    destruct e, mg as [g|], c as [ctx|], ls as [s|], tl as [h|],
             se as [e0|];
      try destruct (stop_throws s) eqn:Hs; exec; rewrite ?Hs;
      orphan_solve Hf Hid Hh.
  - open_world w.
    destruct c as [[[] t r]|], ls as [s|], tl as [h|];
      try destruct (stop_throws s) eqn:Hs;
      exec; rewrite ?Hs; cbn [ctx_state]; exec;
      orphan_solve Hf Hid Hh.
  - assert (Hne : id' <> id) by (intros ->; apply Ht; reflexivity).
    destruct (timers (host w) !! id') as [delay'|] eqn:Hid';
      [ rewrite (fire_pending _ _ _ id' delay') by exact Hid'
      | rewrite fire_not_pending by exact Hid'; split; assumption ].
    clear Hid'. open_world w.
    destruct en, c as [ctx|], bn as [b|], mg as [g|], tl as [h|]; exec;
      orphan_solve Hf Hid Hh.
Qed.

(** X18: a pending timer whose handle the object does not hold cannot
    be cancelled.  With handles handed out in increasing order, such a
    timer is still pending, and still not held, after any run of API
    calls and of other timers' callbacks: [stopTypingLoop],
    [setEnabled(false)] and [dispose] clear the held handle only. *)
Theorem unheld_timer_stays_pending (random : nat -> Q)
    (CONFIG : AudioConfig) (stop_throws : LoopSource -> bool)
    (ts : list Task) (id : positive) (delay : Q) :
  forall w,
    fresh_handles w ->
    timers (host w) !! id = Some delay ->
    typingLoopTimeout (this w) <> Some id ->
    Forall (fun t => t <> timer_fires id) ts ->
    timers (host (run random CONFIG stop_throws ts w)) !! id = Some delay /\
    typingLoopTimeout (this (run random CONFIG stop_throws ts w)) <> Some id.
Proof.
  induction ts as [|t ts IH]; intros w Hf Hid Hh Hts; cbn [run].
  - split; assumption.
  - apply Forall_cons in Hts. destruct Hts as [Ht Hts].
    destruct (perform_orphan random CONFIG stop_throws t w id delay
                Hf Hid Hh Ht) as [Hid' Hh'].
    apply IH; try assumption. apply perform_fresh, Hf.
Qed.

Lemma unheld_timer_stays_pending_witness :
  let w :=
    run Demo.random Demo.CONFIG Demo.stop_throws
      [call_startTypingLoop; call_startTypingLoop] Demo.ready in
  let ts := [call_stopTypingLoop; call_setEnabled false; call_dispose;
             timer_fires 2%positive; call_setEnabled true;
             call_startTypingLoop; call_playKeyPress;
             call_stopTypingLoop] in
  timers (host (run Demo.random Demo.CONFIG Demo.stop_throws ts w))
    !! 1%positive = Some 500 /\
  typingLoopTimeout
    (this (run Demo.random Demo.CONFIG Demo.stop_throws ts w))
    <> Some 1%positive.
Proof.
  apply (unheld_timer_stays_pending Demo.random Demo.CONFIG
           Demo.stop_throws).
  - apply run_fresh. intros j [x Hx]. discriminate Hx.
  - reflexivity.
  - intros H. discriminate H.
  - repeat (apply List.Forall_cons; [intros H; discriminate H|]).
    apply List.Forall_nil.
Defined.

(** X19: starts pile up.  On an enabled, initialized engine without a
    loop sample and with handles handed out in increasing order, [n]
    calls of [startTypingLoop] in a row add exactly [n] pending timers,
    whatever was pending before. *)
Theorem starts_pile_up (random : nat -> Q) (CONFIG : AudioConfig)
    (stop_throws : LoopSource -> bool) (n : nat) :
  forall w,
    fresh_handles w ->
    enabled (this w) = true ->
    initialized (this w) = true ->
    typingLoopBuffer (this w) = None ->
    pending (run random CONFIG stop_throws
               (replicate n call_startTypingLoop) w)
    = (pending w + n)%nat.
Proof.
  induction n as [|n IH]; intros w Hf He Hi Hb; cbn [replicate run perform].
  - symmetry. apply Nat.add_0_r.
  - rewrite IH.
    + unfold fresh_handles in Hf.
      open_world w. subst en ini lb. exec. unfold pending. fields.
      rewrite map_size_insert_None; [lia|].
      destruct (tm !! nx) eqn:Hnx; [|reflexivity].
      assert (Hs : is_Some (tm !! nx)) by (rewrite Hnx; eauto).
      apply Hf in Hs. lia.
    + apply (perform_fresh random CONFIG stop_throws call_startTypingLoop),
        Hf.
    + open_world w. subst en ini lb. reflexivity.
    + open_world w. subst en ini lb. reflexivity.
    + open_world w. subst en ini lb. reflexivity.
Qed.

Lemma starts_pile_up_witness :
  pending (run Demo.random Demo.CONFIG Demo.stop_throws
             (replicate 5 call_startTypingLoop) Demo.ready)
  = (pending Demo.ready + 5)%nat.
Proof.
  apply (starts_pile_up Demo.random Demo.CONFIG Demo.stop_throws 5
           Demo.ready).
  - intros j [x Hx]. discriminate Hx.
  - reflexivity.
  - reflexivity.
  - reflexivity.
Defined.

(** X20: [dispose()] on an object with a context, all of whose pending
    timers are held, completes normally, stops the loop (no timer, no
    handle, no loop source) and closes the context, but neither disables
    nor un-initializes the engine and removes no voice from the graph. *)
Theorem dispose_stops_and_closes (stop_throws : LoopSource -> bool)
    (w : World) (ctx : AudioContext) :
  tidy w ->
  context (this w) = Some ctx ->
  let w' := snd (dispose stop_throws w) in
  fst (dispose stop_throws w) = Normal tt /\
  timers (host w') = ∅ /\
  typingLoopTimeout (this w') = None /\
  typingLoopSource (this w') = None /\
  context (this w') =
    Some {| ctx_state := Closed; currentTime := currentTime ctx;
            sampleRate := sampleRate ctx |} /\
  enabled (this w') = enabled (this w) /\
  initialized (this w') = initialized (this w) /\
  graph (host w') = graph (host w).
Proof.
  intros Ht Hc w'.
  pose proof (dispose_stops stop_throws w Ht) as Htm. fold w' in Htm.
  revert Htm. subst w'. clear Ht. open_world w. subst c.
  destruct ctx as [[] t r], ls as [s|], tl as [id|];
    try destruct (stop_throws s) eqn:Hs;
    exec; rewrite ?Hs; cbn [ctx_state currentTime sampleRate]; exec;
    intros Htm; repeat split; first [exact Htm | reflexivity].
Qed.

Lemma dispose_stops_and_closes_witness :
  let w := snd (startTypingLoop Demo.CONFIG Demo.ready) in
  let w' := snd (dispose Demo.stop_throws w) in
  fst (dispose Demo.stop_throws w) = Normal tt /\
  timers (host w') = ∅ /\
  typingLoopTimeout (this w') = None /\
  typingLoopSource (this w') = None /\
  context (this w') =
    Some {| ctx_state := Closed;
            currentTime := currentTime Demo.new_context;
            sampleRate := sampleRate Demo.new_context |} /\
  enabled (this w') = enabled (this w) /\
  initialized (this w') = initialized (this w) /\
  graph (host w') = graph (host w).
Proof.
  apply (dispose_stops_and_closes Demo.stop_throws
           (snd (startTypingLoop Demo.CONFIG Demo.ready))
           Demo.new_context).
  - apply (tidy_single _ 1%positive 500); reflexivity.
  - reflexivity.
Defined.

Ltac triple_solve :=
  fields; rewrite ?modal_voices_app, ?length_app;
  cbn [modal_voices length];
  first [ exists 0%nat; lia | exists 1%nat; lia ].

Lemma perform_triples (random : nat -> Q) (CONFIG : AudioConfig)
    (stop_throws : LoopSource -> bool) (t : Task) (w : World) :
  exists k,
    length (modal_voices
              (graph (host (snd (perform random CONFIG stop_throws t w)))))
    = (length (modal_voices (graph (host w))) + 3 * k)%nat.
Proof.
  destruct t as [| | |e| |id]; cbn [perform].
  - open_world w. destruct en, ini, lb as [l|], c as [ctx|], mg as [g|];
      exec; triple_solve.
  - open_world w. destruct ls as [s|], tl as [id|];
      try destruct (stop_throws s) eqn:Hs; exec; rewrite ?Hs; triple_solve.
  - open_world w.
    destruct en, ini, kb as [k|], c as [ctx|], bn as [b|], mg as [g|];
      exec; triple_solve.
  - open_world w.
    destruct e, mg as [g|], c as [ctx|], ls as [s|], tl as [id|],
             se as [e0|];
      try destruct (stop_throws s) eqn:Hs; exec; rewrite ?Hs; triple_solve.
  - open_world w.
    destruct c as [[[] t r]|], ls as [s|], tl as [id|];
      try destruct (stop_throws s) eqn:Hs;
      exec; rewrite ?Hs; cbn [ctx_state]; exec; triple_solve.
  - destruct (timers (host w) !! id) as [delay|] eqn:Hid;
      [ rewrite (fire_pending _ _ _ id delay) by exact Hid
      | rewrite fire_not_pending by exact Hid; cbn [snd];
        exists 0%nat; lia ].
    clear Hid. open_world w.
    destruct en, c as [ctx|], bn as [b|], mg as [g|]; exec; triple_solve.
Qed.

(** X21: a synthetic keypress is all or nothing.  In every state and
    after any run of tasks, the number of modal voices in the graph has
    grown by a multiple of three: no task ever leaves one or two voices
    of a keypress behind, also when something raises on the way. *)
Theorem modal_voices_come_in_threes (random : nat -> Q)
    (CONFIG : AudioConfig) (stop_throws : LoopSource -> bool)
    (ts : list Task) (w : World) :
  exists k,
    length (modal_voices
              (graph (host (run random CONFIG stop_throws ts w))))
    = (length (modal_voices (graph (host w))) + 3 * k)%nat.
Proof.
  revert w. induction ts as [|t ts IH]; intros w; cbn [run].
  - exists 0%nat. lia.
  - destruct (perform_triples random CONFIG stop_throws t w) as [k Hk].
    destruct (IH (snd (perform random CONFIG stop_throws t w))) as [k' Hk'].
    exists (k + k')%nat. lia.
Qed.
